(** * ticket-monitor: plugin validator, plugin registry and polling loop

    A shallow embedding of [analyzer.validate_plugin_code],
    [plugin_loader] and the polling loop of [monitor.cmd_run], with the
    properties the specification states about them. *)

From Stdlib Require Import ZArith Ascii String List Lia.
From stdpp Require Import base option list strings gmap fin_maps sorting pretty.

Set Warnings "-register-all,-clear-no-such-hyp,-abstract-large-number".


(** ** Python string helpers *)

Module Py.

(** The line feed a Python literal writes as a backslash followed by n. *)
Definition nl : string := String (ascii_of_nat 10) "".

(** [s.split(sep)] for a one-character separator. *)
Fixpoint split (sep : ascii) (s : string) : list string :=
  match s with
  | EmptyString => [""]
  | String c r =>
      if decide (c = sep) then "" :: split sep r
      else match split sep r with
           | h :: t => String c h :: t
           | [] => [String c ""]
           end
  end.

(** [s.startswith(p)] and [s.endswith(p)]. *)
Definition startswith (s p : string) : bool := String.prefix p s.

Definition endswith (s p : string) : bool :=
  String.prefix (String.rev p) (String.rev s).

(** [s[:-n]]. *)
Definition drop_last (n : nat) (s : string) : string :=
  String.substring 0 (String.length s - n) s.

(** Truthiness of an optional string, as in [x or y]. *)
Definition str_or (x : option string) (y : string) : string :=
  match x with
  | Some (String c r) => String c r
  | _ => y
  end.


(** [needle in hay] for strings. *)
Fixpoint contains (needle hay : string) : bool :=
  String.prefix needle hay
  || match hay with
     | EmptyString => false
     | String _ rest => contains needle rest
     end.

(** [sep.join(parts)] *)
Fixpoint join (sep : string) (parts : list string) : string :=
  match parts with
  | [] => ""
  | [p] => p
  | p :: rest => p +:+ sep +:+ join sep rest
  end.

End Py.

(** ** models.py *)

Inductive TicketState :=
| UNKNOWN | NOT_AVAILABLE | COMING_SOON | AVAILABLE | SOLD_OUT.

#[global] Instance TicketState_eq_dec : EqDecision TicketState.
Proof. solve_decision. Defined.

(** [TicketState.X.value] *)
Definition value (s : TicketState) : string :=
  match s with
  | UNKNOWN => "UNKNOWN"
  | NOT_AVAILABLE => "NOT_AVAILABLE"
  | COMING_SOON => "COMING_SOON"
  | AVAILABLE => "AVAILABLE"
  | SOLD_OUT => "SOLD_OUT"
  end.

Record CheckResult := mkCheckResult {
  state : TicketState;
  details : string;
  event_name : option string
}.

(** ** The syntax trees [ast.parse] produces and [ast.walk] *)

Module Ast.

Record alias := mkAlias { name : string; asname : option string }.

(** The node classes the validator looks at carry their own fields, in
    the order of Python's [_fields], and so does [AsyncFunctionDef], the
    class of [async def], which the validator passes over; every other
    class is [Other] with its child nodes in [iter_child_nodes] order
    (an annotated assignment is [Other "AnnAssign"] over its target, its
    annotation and its value, a tuple target [Other "Tuple"] over its
    elements and its context).  Fields that hold no node (type comments)
    are left out, and so is [type_ignores] of a module, which
    [ast.parse(code)] leaves empty. *)
Inductive node :=
| Module_ (body : list node)
| Import (names : list alias)
| ImportFrom (module : option string) (names : list alias) (level : Z)
| Alias (a : alias)
| Call (func : node) (args : list node) (keywords : list node)
| Name (id : string) (ctx : node)
| Attribute (value : node) (attr : string) (ctx : node)
| Assign (targets : list node) (value : node)
| FunctionDef (name : string) (args : node) (body : list node)
    (decorator_list : list node) (returns : option node)
    (type_params : list node)
| AsyncFunctionDef (name : string) (args : node) (body : list node)
    (decorator_list : list node) (returns : option node)
    (type_params : list node)
| Other (class_name : string) (children : list node).

Definition LoadCtx : node := Other "Load" [].
Definition StoreCtx : node := Other "Store" [].

Definition opt_list (o : option node) : list node :=
  match o with Some n => [n] | None => [] end.

(** [ast.iter_child_nodes] *)
Definition iter_child_nodes (n : node) : list node :=
  match n with
  | Module_ body => body
  | Import names => map Alias names
  | ImportFrom _ names _ => map Alias names
  | Alias _ => []
  | Call func args keywords => func :: args ++ keywords
  | Name _ ctx => [ctx]
  | Attribute v _ ctx => [v; ctx]
  | Assign targets v => targets ++ [v]
  | FunctionDef _ args body decos returns type_params
  | AsyncFunctionDef _ args body decos returns type_params =>
      args :: body ++ decos ++ opt_list returns ++ type_params
  | Other _ children => children
  end.

Fixpoint size (n : node) : nat :=
  match n with
  | Module_ body => S (list_sum (map size body))
  | Import names => S (length names)
  | ImportFrom _ names _ => S (length names)
  | Alias _ => 1
  | Call func args keywords =>
      S (size func + (list_sum (map size args) + list_sum (map size keywords)))
  | Name _ ctx => S (size ctx)
  | Attribute v _ ctx => S (size v + size ctx)
  | Assign targets v => S (list_sum (map size targets) + size v)
  | FunctionDef _ args body decos returns type_params
  | AsyncFunctionDef _ args body decos returns type_params =>
      S (size args + (list_sum (map size body) + (list_sum (map size decos)
         + (match returns with Some r => size r | None => 0 end
            + list_sum (map size type_params)))))
  | Other _ children => S (list_sum (map size children))
  end.

Definition total_size (l : list node) : nat := list_sum (map size l).

(** [ast.walk]: a queue seeded with the root; each step pops the head,
    appends its children at the back and yields it.  The queue is
    bounded by the number of nodes, which is the fuel [walk] supplies. *)
Fixpoint walk_queue (fuel : nat) (todo : list node) : list node :=
  match fuel with
  | O => []
  | S fuel' =>
      match todo with
      | [] => []
      | n :: rest => n :: walk_queue fuel' (rest ++ iter_child_nodes n)
      end
  end.

Definition walk (tree : node) : list node := walk_queue (size tree) [tree].

(** [x] occurs in the tree rooted at [n]. *)
Inductive subnode (x : node) : node → Prop :=
| subnode_here : subnode x x
| subnode_child n c :
    c ∈ iter_child_nodes n → subnode x c → subnode x n.

End Ast.

(** ** analyzer.py *)

Module Analyzer.
Import Ast.

Definition ALLOWED_IMPORTS : gset string :=
  {[ "re"; "json"; "html"; "html.parser"; "urllib.parse"; "models" ]}.

Definition FORBIDDEN_CALLS : gset string :=
  {[ "exec"; "eval"; "compile"; "__import__"; "open";
     "getattr"; "setattr"; "delattr" ]}.

(** [name.split(".")[0]] *)
Definition top_segment (dotted : string) : string :=
  nth 0 (Py.split "." dotted) "".

(** The local variables of the loop in [validate_plugin_code]. *)
Record vstate := mkV {
  errors : list string;
  has_patterns : bool;
  has_parse : bool
}.

Definition import_errors (names : list alias) : list string :=
  omap (λ a : alias,
          if decide (top_segment (name a) ∈ ALLOWED_IMPORTS) then None
          else Some ("Forbidden import: " +:+ name a)) names.

Definition import_from_errors (module : option string) : list string :=
  match module with
  | Some (String c r as m) =>
      if decide (top_segment m ∈ ALLOWED_IMPORTS) then []
      else ["Forbidden import: from " +:+ m]
  | _ => []
  end.

(** The name a call goes through: [func.id] or [func.attr], else None. *)
Definition called_name (func : node) : option string :=
  match func with
  | Name id _ => Some id
  | Attribute _ attr _ => Some attr
  | _ => None
  end.

Definition call_errors (func : node) : list string :=
  match called_name func with
  | Some nm =>
      if decide (nm ∈ FORBIDDEN_CALLS) then ["Forbidden call: " +:+ nm +:+ "()"]
      else []
  | None => []
  end.

Definition is_patterns_target (t : node) : bool :=
  match t with
  | Name id _ => bool_decide (id = "PLATFORM_PATTERNS")
  | _ => false
  end.

(** One iteration of [for node in ast.walk(tree)]. *)
Definition visit (st : vstate) (n : node) : vstate :=
  match n with
  | Import names =>
      mkV (errors st ++ import_errors names) (has_patterns st) (has_parse st)
  | ImportFrom module _ _ =>
      mkV (errors st ++ import_from_errors module) (has_patterns st) (has_parse st)
  | Call func _ _ =>
      mkV (errors st ++ call_errors func) (has_patterns st) (has_parse st)
  | Assign targets _ =>
      mkV (errors st) (has_patterns st || existsb is_patterns_target targets)
          (has_parse st)
  | FunctionDef nm _ _ _ _ _ =>
      mkV (errors st) (has_patterns st)
          (has_parse st || bool_decide (nm = "parse"))
  | _ => st
  end.

(** The loop's variables before its first iteration. *)
Definition fresh : vstate := mkV [] false false.

Definition MISSING_PATTERNS : string := "Missing PLATFORM_PATTERNS assignment".
Definition MISSING_PARSE : string := "Missing parse() function definition".

(** The part of [validate_plugin_code] after a successful [ast.parse]. *)
Definition validate_tree (tree : node) : list string :=
  let st := fold_left visit (walk tree) fresh in
  errors st
    ++ (if has_patterns st then [] else [MISSING_PATTERNS])
    ++ (if has_parse st then [] else [MISSING_PARSE]).

(** A [SyntaxError], by the text [str(e)] gives. *)
Record SyntaxError := mkSyntaxError { str : string }.

Section Validate.
(** [ast.parse] where it returns or raises [SyntaxError]: the body of the
    [ast.Module], or the error raised.  The other exceptions it can raise
    are in [Raising] below. *)
Variable ast_parse : string → SyntaxError + list node.

Definition validate_plugin_code (code : string) : list string :=
  match ast_parse code with
  | inl e => ["SyntaxError: " +:+ str e]
  | inr body => validate_tree (Module_ body)
  end.
End Validate.

(** [ast.parse] raises more than [SyntaxError]: a [RecursionError] or a
    [MemoryError] on a source nested too deeply, a [ValueError] on a text
    the compiler refuses to read.  The [try] of [validate_plugin_code]
    has a handler for [SyntaxError] alone, so any other exception leaves
    the call.  [Raising] is the call with that outcome as well. *)
Module Raising.

Inductive parse_result :=
| RaisesSyntaxError (e : SyntaxError)
| RaisesOther (exc : string)
| Returns (body : list node).

(** An outcome of [ast.parse] that [validate_plugin_code] handles. *)
Definition handled (r : SyntaxError + list node) : parse_result :=
  match r with
  | inl e => RaisesSyntaxError e
  | inr body => Returns body
  end.

Section Validate.
Variable ast_parse : string → parse_result.

(** The exception that leaves the call, by its text, or the list
    returned. *)
Definition validate_plugin_code (code : string) : string + list string :=
  match ast_parse code with
  | RaisesSyntaxError e => inr ["SyntaxError: " +:+ str e]
  | RaisesOther exc => inl exc
  | Returns body => inr (validate_tree (Module_ body))
  end.
End Validate.

End Raising.

End Analyzer.

(** ** plugin_loader.py *)

Module PluginLoader.

(** What a plugin's [parse] does on a page: the exception it raises (by
    its text) or the result it returns. *)
Definition parse_fn_t : Type := string → string → string + CheckResult.

(** What a plugin module exposes once executed: the module attributes
    [PLATFORM_PATTERNS] and [parse], each absent or present. *)
Record PyModule := mkPyModule {
  PLATFORM_PATTERNS : option (list string);
  parse : option parse_fn_t
}.

Section Registry.

(** Compiled regular expressions, [re.compile] (None when it raises) and
    [Pattern.search] as a truth value. *)
Variable Regex : Type.
Variable re_compile : string → option Regex.
Variable re_search : Regex → string → bool.

(** [_load_module]: executing the source of [plugins.<name>]; None when
    no module comes out of it (no loader, or the module body raises).
    It is a function of the source text here: importlib compiles the
    file it is given, or runs bytecode that is up to date with it.  The
    bytecode files themselves, and what a load makes of one that is not
    up to date, are in [Disk] below. *)
Variable exec_module : string → string → option PyModule.

Variable PLUGINS_DIR : string.

Record Plugin := mkPlugin {
  name : string;
  patterns : list string;
  parse_fn : parse_fn_t;
  _compiled : list Regex
}.

(** [Plugin.matches_url] *)
Definition matches_url (p : Plugin) (url : string) : bool :=
  existsb (λ r, re_search r url) (_compiled p).

(** The plugin sources of the plugins directory (file name to content)
    and the module-level [_cache].  Plugin names are taken to be names of
    files of that directory: [file_of] is the file of a name, as
    [os.listdir] reports it. *)
Record registry := mkRegistry {
  files : gmap string string;
  _cache : gmap string Plugin
}.

Definition file_of (name : string) : string := name +:+ ".py".

(** [os.path.join(PLUGINS_DIR, f"{name}.py")] *)
Definition path_of (name : string) : string :=
  PLUGINS_DIR +:+ "/" +:+ file_of name.

(** The body of the [try] in [load_plugin], from the source read to the
    [Plugin] built; None on each early return and on any exception. *)
Definition instantiate (name code : string) : option Plugin :=
  m ← exec_module name code;
  patterns ← PLATFORM_PATTERNS m;
  parse_fn ← parse m;
  compiled ← mapM re_compile patterns;
  Some (mkPlugin name patterns parse_fn compiled).

Definition load_plugin (name : string) (st : registry)
  : option Plugin * registry :=
  match _cache st !! name with
  | Some p => (Some p, st)
  | None =>
      match files st !! file_of name with
      | None => (None, st)
      | Some code =>
          match instantiate name code with
          | Some plugin =>
              (Some plugin, mkRegistry (files st) (<[name := plugin]> (_cache st)))
          | None => (None, st)
          end
      end
  end.

(** [sorted(os.listdir(PLUGINS_DIR))] *)
Definition sorted_listdir (st : registry) : list string :=
  merge_sort String.le (elements (dom (files st))).

(** One iteration of the loop of [load_all_plugins]. *)
Definition load_all_step (acc : list Plugin * registry) (filename : string)
  : list Plugin * registry :=
  if Py.startswith filename "_" || negb (Py.endswith filename ".py") then acc
  else
    let name := Py.drop_last 3 filename in
    match load_plugin name acc.2 with
    | (Some plugin, st') => (acc.1 ++ [plugin], st')
    | (None, st') => (acc.1, st')
    end.

Definition load_all_plugins (st : registry) : list Plugin * registry :=
  fold_left load_all_step (sorted_listdir st) ([], st).

Definition find_plugin_for_url (url : string) (st : registry)
  : option Plugin * registry :=
  let '(plugins, st') := load_all_plugins st in
  (find (λ p, matches_url p url) plugins, st').

Definition save_plugin (name code : string) (st : registry)
  : string * registry :=
  (path_of name,
   mkRegistry (<[file_of name := code]> (files st)) (delete name (_cache st))).

(** [reload_plugin]; the [sys.modules] entry it pops is one [_load_module]
    never makes, so only the [_cache] eviction shows. *)
Definition reload_plugin (name : string) (st : registry)
  : option Plugin * registry :=
  load_plugin name (mkRegistry (files st) (delete name (_cache st))).

(** The calls a client of the registry can make. *)
Inductive op :=
| OpLoad (name : string)
| OpLoadAll
| OpFind (url : string)
| OpSave (name code : string)
| OpReload (name : string).

Definition run_op (o : op) (st : registry) : registry :=
  match o with
  | OpLoad name => (load_plugin name st).2
  | OpLoadAll => (load_all_plugins st).2
  | OpFind url => (find_plugin_for_url url st).2
  | OpSave name code => (save_plugin name code st).2
  | OpReload name => (reload_plugin name st).2
  end.

(** Whether a call is one of the two that evict [name]. *)
Definition evicts (name : string) (o : op) : bool :=
  match o with
  | OpSave n _ | OpReload n => bool_decide (n = name)
  | _ => false
  end.

(** What can happen to a registry: a call, or the plugins directory
    changed from outside the process (the cache is left as it is). *)
Inductive action :=
| Invoke (o : op)
| OutOfBand (files' : gmap string string).

Definition run_action (st : registry) (a : action) : registry :=
  match a with
  | Invoke o => run_op o st
  | OutOfBand files' => mkRegistry files' (_cache st)
  end.

Definition keeps (name : string) (a : action) : Prop :=
  match a with
  | Invoke o => evicts name o = false
  | OutOfBand _ => True
  end.

End Registry.

Arguments name {Regex} _.
Arguments patterns {Regex} _.
Arguments parse_fn {Regex} _.
Arguments _compiled {Regex} _.
Arguments files {Regex} _.
Arguments _cache {Regex} _.
Arguments mkRegistry {Regex} _ _.
Arguments mkPlugin {Regex} _ _ _ _.

End PluginLoader.

(** ** plugin_loader.py with the files importlib keeps

    [PluginLoader] has the plugins directory as the text of each source
    file and takes the execution of a source as a function of that text,
    which is what [_load_module] does as long as importlib compiles the
    file it is given.  The loader of [spec_from_file_location] is
    importlib's [SourceFileLoader], though: its [exec_module] looks in
    [plugins/__pycache__] for the bytecode file of the source first.
    When the modification time, in whole seconds, and the size recorded
    in that file are those of the source file, it runs the recorded
    bytecode and does not compile the source; otherwise it compiles the
    source and writes the bytecode file (Python's default; it is not
    written with [sys.dont_write_bytecode] set or without write access).
    Nothing in [plugin_loader.py] touches the bytecode files.  [Disk] is [load_plugin], [save_plugin]
    and [reload_plugin] over the source files with their modification
    times and the bytecode files, for plugin names that are file names
    of the plugins directory. *)
Module Disk.
Import PluginLoader.

(** A source file: its text and [st_mtime] in whole seconds. *)
Record source_file := mkSourceFile {
  text : string;
  st_mtime : Z
}.

Section Loader.

Variable Regex : Type.
Variable re_compile : string → option Regex.

(** Code objects; compiling a source text (None when that raises), and
    executing a code object as the body of the new module
    [plugins.<name>] (None when that raises). *)
Variable Bytecode : Type.
Variable source_to_code : string → option Bytecode.
Variable exec_code : string → Bytecode → option PyModule.

Variable PLUGINS_DIR : string.

(** A bytecode file: the modification time and the size of the source
    it was compiled from, each in 32 bits, and the code object. *)
Record pyc := mkPyc {
  source_mtime : Z;
  source_size : Z;
  code : Bytecode
}.

(** The plugins directory, its [__pycache__] by source file name, and
    the module-level [_cache]. *)
Record state := mkState {
  files : gmap string source_file;
  __pycache__ : gmap string pyc;
  _cache : gmap string (Plugin Regex)
}.

Definition uint32 (z : Z) : Z := Z.land z 4294967295.

(** [SourceFileLoader.get_code] on the source file named [f]. *)
Definition get_code (f : string) (src : source_file) (st : state)
  : option Bytecode * state :=
  let mtime := uint32 (st_mtime src) in
  let size := uint32 (Z.of_nat (String.length (text src))) in
  let compiled :=
    match source_to_code (text src) with
    | Some bc =>
        (Some bc,
         mkState (files st) (<[f := mkPyc mtime size bc]> (__pycache__ st))
           (_cache st))
    | None => (None, st)
    end in
  match __pycache__ st !! f with
  | Some c =>
      if bool_decide (source_mtime c = mtime ∧ source_size c = size)
      then (Some (code c), st)
      else compiled
  | None => compiled
  end.

(** From the module executed to the [Plugin] built. *)
Definition plugin_of_module (name : string) (m : PyModule)
  : option (Plugin Regex) :=
  patterns ← PLATFORM_PATTERNS m;
  parse_fn ← parse m;
  compiled ← mapM re_compile patterns;
  Some (mkPlugin name patterns parse_fn compiled).

Definition load_plugin (name : string) (st : state)
  : option (Plugin Regex) * state :=
  match _cache st !! name with
  | Some p => (Some p, st)
  | None =>
      match files st !! file_of name with
      | None => (None, st)
      | Some src =>
          let '(bc, st1) := get_code (file_of name) src st in
          match (bc ≫= exec_code name) ≫= plugin_of_module name with
          | Some plugin =>
              (Some plugin,
               mkState (files st1) (__pycache__ st1)
                 (<[name := plugin]> (_cache st1)))
          | None => (None, st1)
          end
      end
  end.

(** [save_plugin] at the time [now], in whole seconds, that the file
    written gets as its modification time. *)
Definition save_plugin (now : Z) (name code : string) (st : state)
  : string * state :=
  (path_of PLUGINS_DIR name,
   mkState (<[file_of name := mkSourceFile code now]> (files st))
     (__pycache__ st) (delete name (_cache st))).

Definition reload_plugin (name : string) (st : state)
  : option (Plugin Regex) * state :=
  load_plugin name
    (mkState (files st) (__pycache__ st) (delete name (_cache st))).

(** The state [PluginLoader] sees, and the execution of a source text
    it stands on. *)
Definition registry_of (st : state) : registry Regex :=
  mkRegistry (text <$> files st) (_cache st).

Definition exec_module (name code : string) : option PyModule :=
  source_to_code code ≫= exec_code name.

(** No bytecode file stands in for another text of [name]'s source: one
    whose stamps are those of the source file holds the code object the
    text of that file compiles to. *)
Definition up_to_date (name : string) (st : state) : Prop :=
  ∀ src c,
    files st !! file_of name = Some src →
    __pycache__ st !! file_of name = Some c →
    source_mtime c = uint32 (st_mtime src) →
    source_size c = uint32 (Z.of_nat (String.length (text src))) →
    source_to_code (text src) = Some (code c).

End Loader.

Arguments files {Regex Bytecode} _.
Arguments __pycache__ {Regex Bytecode} _.
Arguments _cache {Regex Bytecode} _.
Arguments mkState {Regex Bytecode} _ _ _.
Arguments mkPyc {Bytecode} _ _ _.

End Disk.

(** ** models.WatchEntry and watchlist.py *)

Record WatchEntry := mkWatchEntry {
  url : string;
  plugin_name : string;
  entry_event_name : string;
  added_at : string;
  last_state : string;
  last_check : string;
  consecutive_failures : Z
}.

Module Watchlist.

(** A row of the [watchlist] table without its primary key [url]. *)
Record row := mkRow {
  r_plugin_name : string;
  r_event_name : string;
  r_added_at : string;
  r_last_state : string;
  r_last_check : string;
  r_consecutive_failures : Z
}.

(** The table: [url] is its primary key. *)
Abbreviation table := (gmap string row).

Definition entry_of (kv : string * row) : WatchEntry :=
  mkWatchEntry kv.1 (r_plugin_name kv.2) (r_event_name kv.2) (r_added_at kv.2)
    (r_last_state kv.2) (r_last_check kv.2) (r_consecutive_failures kv.2).

(** [ORDER BY added_at] *)
Definition by_added_at (a b : string * row) : Prop :=
  String.le (r_added_at a.2) (r_added_at b.2).

#[global] Instance by_added_at_dec : RelDecision by_added_at.
Proof. intros a b. unfold by_added_at. apply _. Defined.

Definition list_all (db : table) : list WatchEntry :=
  entry_of <$> merge_sort by_added_at (map_to_list db).

(** [update_state]; [now] is the timestamp it takes from the clock. *)
Definition update_state (now : string) (url state : string)
    (reset_failures : bool) (db : table) : table :=
  if reset_failures then
    alter (λ r, mkRow (r_plugin_name r) (r_event_name r) (r_added_at r)
                  state now 0%Z) url db
  else
    alter (λ r, mkRow (r_plugin_name r) (r_event_name r) (r_added_at r)
                  state now (r_consecutive_failures r)) url db.

Definition increment_failures (url : string) (db : table) : Z * table :=
  let db' :=
    alter (λ r, mkRow (r_plugin_name r) (r_event_name r) (r_added_at r)
                  (r_last_state r) (r_last_check r)
                  (r_consecutive_failures r + 1)%Z) url db in
  (match db' !! url with
   | Some r => r_consecutive_failures r
   | None => 0%Z
   end, db').

(** [add]: a new row with the table's defaults, or, on a URL already
    there, only [plugin_name] and [event_name] replaced. *)
Definition add (now : string) (url plugin_name event_name : string)
    (db : table) : table :=
  match db !! url with
  | None => <[url := mkRow plugin_name event_name now "UNKNOWN" "" 0%Z]> db
  | Some r =>
      <[url := mkRow plugin_name event_name (r_added_at r) (r_last_state r)
                 (r_last_check r) (r_consecutive_failures r)]> db
  end.

(** [remove]: whether a row went ([rowcount > 0]) and the table left. *)
Definition remove (url : string) (db : table) : bool * table :=
  (bool_decide (is_Some (db !! url)), delete url db).

Definition get (url : string) (db : table) : option WatchEntry :=
  (λ r, entry_of (url, r)) <$> db !! url.

End Watchlist.

(** ** config.py *)

Definition BACKOFF_FACTOR : Z := 2.
Definition MAX_BACKOFF : Z := 600.

(** ** monitor.py *)

Module Monitor.
Import PluginLoader Watchlist.

(** What the loop does to the outside: the log records it writes and the
    calls it makes to the two notifiers. *)
Inductive event :=
| LogPluginMissing (plugin_name url : string)
| LogFetchFailed (check_count : Z) (url tier : string) (failures backoff : Z)
| LogPluginCrashed (plugin_name url exc : string)
| LogCheck (check_count : Z) (url state_str tier details : string)
| LogStateChanged (url prev state : string)
| SendTelegram (message : string)
| SendMacos (title message : string).

(** The backoff delays the log records of failed fetches carry. *)
Definition logged_backoffs (evs : list event) : list Z :=
  omap (λ e, match e with
             | LogFetchFailed _ _ _ _ backoff => Some backoff
             | _ => None
             end) evs.


Definition is_notification (e : event) : bool :=
  match e with SendTelegram _ | SendMacos _ _ => true | _ => false end.

Definition AVAILABLE_MSG (event url details : string) : string :=
  "*TICKETS AVAILABLE!*" +:+ Py.nl +:+ Py.nl +:+ event +:+ Py.nl
  +:+ "[BOOK NOW](" +:+ url +:+ ")" +:+ Py.nl +:+ Py.nl +:+ details.

Definition LISTED_MSG (event url details : string) : string :=
  "*Event now listed!*" +:+ Py.nl +:+ Py.nl +:+ "Status: Coming Soon" +:+ Py.nl
  +:+ event +:+ Py.nl +:+ details +:+ Py.nl +:+ Py.nl
  +:+ "[View page](" +:+ url +:+ ")".

Definition SOLD_OUT_MSG (event details : string) : string :=
  "*Sold Out*" +:+ Py.nl +:+ event +:+ Py.nl +:+ details.

Definition GENERIC_MSG (prev state event details : string) : string :=
  "State changed: " +:+ prev +:+ " -> " +:+ state +:+ Py.nl +:+ event
  +:+ Py.nl +:+ details.

(** [_handle_state_change], by the events it produces in order. *)
Definition _handle_state_change (url prev : string) (result : CheckResult)
  : list event :=
  let state_str := value (state result) in
  let details := details result in
  let event := Py.str_or (event_name result) url in
  LogStateChanged url prev state_str ::
  if decide (state result = AVAILABLE) then
    [SendTelegram (AVAILABLE_MSG event url details);
     SendMacos "TICKETS AVAILABLE!" event]
  else if decide (state result = COMING_SOON ∧ prev = "NOT_AVAILABLE") then
    [SendTelegram (LISTED_MSG event url details);
     SendMacos "Event Listed!" (event +:+ " — Coming Soon")]
  else if decide (state result = SOLD_OUT) then
    [SendTelegram (SOLD_OUT_MSG event details)]
  else
    [SendTelegram (GENERIC_MSG prev state_str event details)].

Section Poller.

Variable Regex : Type.
Variable re_compile : string → option Regex.
Variable exec_module : string → string → option PyModule.

(** [POLL_INTERVAL], read from the environment (60 when unset). *)
Variable POLL_INTERVAL : Z.

(** [fetch_page(url)]: the content or None, and the tier label. *)
Variable fetch_page : string → option string * string.

(** The clock reading [update_state] stamps on the row of a URL. *)
Variable now : string → string.

(** The state the loop of [cmd_run] works on. *)
Record poll_state := mkPoll {
  db : table;
  prev_states : gmap string string;
  reg : registry Regex;
  check_count : Z;
  out : list event
}.

(** The body of [for entry in entries], with [running] still set. *)
Definition process_entry (st : poll_state) (entry : WatchEntry) : poll_state :=
  match load_plugin Regex re_compile exec_module (plugin_name entry) (reg st) with
  | (None, reg') =>
      mkPoll (db st) (prev_states st) reg' (check_count st)
        (out st ++ [LogPluginMissing (plugin_name entry) (url entry)])
  | (Some plugin, reg') =>
      match fetch_page (url entry) with
      | (None, tier) =>
          let '(failures, db') := increment_failures (url entry) (db st) in
          let backoff :=
            Z.min (POLL_INTERVAL * BACKOFF_FACTOR ^ failures)%Z MAX_BACKOFF in
          mkPoll db' (prev_states st) reg' (check_count st)
            (out st ++ [LogFetchFailed (check_count st) (url entry) tier
                          failures backoff])
      | (Some html, tier) =>
          match parse_fn plugin html (url entry) with
          | inl exc =>
              mkPoll
                (update_state (now (url entry)) (url entry) "UNKNOWN" false (db st))
                (prev_states st) reg' (check_count st)
                (out st ++ [LogPluginCrashed (plugin_name entry) (url entry) exc])
          | inr result =>
              let state_str := value (state result) in
              let db' :=
                update_state (now (url entry)) (url entry) state_str true (db st) in
              let logged :=
                out st ++ [LogCheck (check_count st) (url entry) state_str tier
                             (details result)] in
              let prev := default "UNKNOWN" (prev_states st !! url entry) in
              if decide (state_str ≠ prev) then
                mkPoll db' (<[url entry := state_str]> (prev_states st)) reg'
                  (check_count st)
                  (logged ++ _handle_state_change (url entry) prev result)
              else
                mkPoll db' (prev_states st) reg' (check_count st) logged
          end
      end
  end.

(** One pass of the [while running] loop (the sleeps aside): the watch
    list is read again, an empty one is skipped without counting. *)
Definition poll_cycle (st : poll_state) : poll_state :=
  match list_all (db st) with
  | [] => st
  | entries =>
      fold_left process_entry entries
        (mkPoll (db st) (prev_states st) (reg st) (check_count st + 1)%Z (out st))
  end.

(** [{e.url: e.last_state for e in entries}] *)
Definition seed_prev_states (entries : list WatchEntry) : gmap string string :=
  fold_left (λ m e, <[url e := last_state e]> m) entries ∅.

(** The state [cmd_run] enters its loop with. *)
Definition start (d : table) (r : registry Regex) : poll_state :=
  mkPoll d (seed_prev_states (list_all d)) r 0%Z [].

End Poller.

Arguments db {Regex} _.
Arguments prev_states {Regex} _.
Arguments reg {Regex} _.
Arguments check_count {Regex} _.
Arguments out {Regex} _.
Arguments mkPoll {Regex} _ _ _ _ _.

End Monitor.

(** ** What the specification says, for comparison with the code *)

Module Claimed.
Import Ast.


Definition deny_list : list string :=
  [ "exec"; "eval"; "compile"; "__import__"; "open";
    "getattr"; "setattr"; "delattr" ].


(** A call expression of the tree whose target is the simple name or the
    attribute name [nm]. *)
Inductive calls (tree : node) (nm : string) : Prop :=
| calls_name ctx args keywords :
    subnode (Call (Name nm ctx) args keywords) tree → calls tree nm
| calls_attribute v ctx args keywords :
    subnode (Call (Attribute v nm ctx) args keywords) tree → calls tree nm.

(** The two node forms the required-symbol checks look for: a plain
    assignment statement with the simple name PLATFORM_PATTERNS itself
    among its targets, and a plain [def] of the name parse. *)
Definition binds_patterns (stmt : node) : bool :=
  match stmt with
  | Assign targets _ => existsb Analyzer.is_patterns_target targets
  | _ => false
  end.

Definition defines_parse (stmt : node) : bool :=
  match stmt with
  | FunctionDef nm _ _ _ _ _ => bool_decide (nm = "parse")
  | _ => false
  end.

(** A node of either form anywhere in the tree. *)
Definition patterns_anywhere (tree : node) : Prop :=
  ∃ n, subnode n tree ∧ binds_patterns n = true.

Definition parse_anywhere (tree : node) : Prop :=
  ∃ n, subnode n tree ∧ defines_parse n = true.

(** Whether an assignment target binds PLATFORM_PATTERNS: the name
    itself, or a tuple, list or starred target that holds it. *)
Fixpoint target_binds_patterns (t : node) : bool :=
  match t with
  | Name id _ => bool_decide (id = "PLATFORM_PATTERNS")
  | Other cls elts =>
      bool_decide (cls ∈ ["Tuple"; "List"; "Starred"])
      && existsb target_binds_patterns elts
  | _ => false
  end.

(** "Defines, at module scope, a patterns collection binding": a
    statement of the module body itself that assigns to
    PLATFORM_PATTERNS, by a plain assignment or by an annotated one that
    has a value.  Statements that bind a name in another way (import,
    for, with, def, class) are not taken to define a collection. *)
Definition assigns_patterns (stmt : node) : bool :=
  match stmt with
  | Assign targets _ => existsb target_binds_patterns targets
  | Other cls (target :: annotation :: value :: _) =>
      bool_decide (cls = "AnnAssign") && target_binds_patterns target
  | _ => false
  end.

(** "A function definition" named parse: [def] or [async def]. *)
Definition defines_function_parse (stmt : node) : bool :=
  match stmt with
  | FunctionDef nm _ _ _ _ _ | AsyncFunctionDef nm _ _ _ _ _ =>
      bool_decide (nm = "parse")
  | _ => false
  end.

Definition patterns_at_module_scope (body : list node) : bool :=
  existsb assigns_patterns body.

Definition parse_at_module_scope (body : list node) : bool :=
  existsb defines_function_parse body.




(** The backoff formula. *)
Definition backoff (base_interval factor max_backoff failures : Z) : Z :=
  Z.min (base_interval * factor ^ failures) max_backoff.

(** The file names [load_all_plugins] does not pass over. *)
Definition listed (f : string) : Prop :=
  (Py.startswith f "_" || negb (Py.endswith f ".py")) = false.

#[global] Instance listed_dec f : Decision (listed f).
Proof. unfold listed. apply _. Defined.

Section Registry.
Import PluginLoader.
Variable Regex : Type.
Variable re_compile : string → option Regex.
Variable re_search : Regex → string → bool.
Variable exec_module : string → string → option PyModule.

(** What a load of [name] yields in a registry state: the cached plugin,
    else the stored source instantiated. *)
Definition resolve (st : registry Regex) (name : string) : option (Plugin Regex) :=
  match _cache st !! name with
  | Some p => Some p
  | None => files st !! file_of name ≫= instantiate Regex re_compile exec_module name
  end.



(** The names [load_all_plugins] goes through, in its order. *)
Definition names_by_file (st : registry Regex) : list string :=
  Py.drop_last 3 <$> filter listed (sorted_listdir Regex st).

End Registry.

End Claimed.

(** ** fetcher.py *)

(** The log records of [fetcher.py] are left out: each function is given
    by what it returns. *)
Module Fetcher.

Definition CLOUDFLARE_SIGNALS : list string :=
  ["Just a moment"; "Attention Required"; "cf-browser-verification"].

(** What [curl_requests.get] answers. *)
Record Response := mkResponse { status_code : Z; text : string }.

Section Fetch.

(** [curl_requests.get(url, ...)] with [resp.text] read: the exception
    raised, by its text, or the response. *)
Variable curl_get : string → string + Response.

(** The browser session of [fetch_page_playwright]: None when Playwright
    cannot be imported, else the exception raised on the way, or the
    title and the content of the page loaded. *)
Variable browse : string → option (string + string * string).

Definition blocked (resp : Response) : bool :=
  bool_decide (status_code resp = 403%Z ∨ status_code resp = 503%Z)
  || existsb (λ s, Py.contains s (text resp)) CLOUDFLARE_SIGNALS.

Definition fetch_page_curl (url : string) (allow_non_200 : bool)
  : option string :=
  match curl_get url with
  | inl exc => None
  | inr resp =>
      let html := text resp in
      if blocked resp then None
      else if bool_decide (status_code resp ≠ 200%Z) then
        if allow_non_200 && negb (bool_decide (html = ""))
           && bool_decide (1000 < String.length html)
        then Some html else None
      else Some html
  end.

Definition fetch_page_playwright (url : string) : option string :=
  match browse url with
  | None => None
  | Some (inl exc) => None
  | Some (inr (title, content)) =>
      if Py.contains "Attention Required" title
         || Py.contains "Just a moment" title
      then None else Some content
  end.

Definition fetch_page (url : string) (allow_non_200 : bool)
  : option string * string :=
  match fetch_page_curl url allow_non_200 with
  | Some html => (Some html, "curl_cffi")
  | None =>
      match fetch_page_playwright url with
      | Some html => (Some html, "Playwright")
      | None => (None, "Failed")
      end
  end.

End Fetch.

End Fetcher.

(** ** notifier.py *)

Module Notifier.

(** What the Telegram API answers to a [sendMessage]. *)
Record ApiResponse := mkApiResponse {
  ok : bool;
  api_status_code : Z;
  api_text : string
}.

Section Telegram.

Variable TELEGRAM_BOT_TOKEN : string.
Variable TELEGRAM_CHAT_ID : string.

(** [requests.post] to [sendMessage], with [parse_mode] Markdown or
    without it: the [RequestException] raised, or the answer. *)
Variable post : bool → string → string + ApiResponse.

(** [send_telegram]: what it returns, and the posts it made, each by
    whether it asked for Markdown. *)
Definition send_telegram (message : string) : bool * list bool :=
  if bool_decide (TELEGRAM_BOT_TOKEN = "") || bool_decide (TELEGRAM_CHAT_ID = "")
  then (false, [])
  else
    match post true message with
    | inl exc => (false, [true])
    | inr resp =>
        if ok resp then (true, [true])
        else if bool_decide (api_status_code resp = 400%Z)
                && Py.contains "can't parse entities" (api_text resp)
        then
          match post false message with
          | inl exc => (false, [true; false])
          | inr resp2 =>
              if ok resp2 then (true, [true; false])
              else (false, [true; false])
          end
        else (false, [true])
    end.

End Telegram.

End Notifier.

(** ** analyzer.generate_plugin *)

Module Generator.

(** The values [json.loads] gives.  A number is given by whether it is
    zero and by its text. *)
Inductive json :=
| JNull
| JBool (b : bool)
| JNum (zero : bool) (repr : string)
| JStr (s : string)
| JList (items : list json)
| JDict (fields : list (string * json)).

(** Truthiness, as [if not result] tests it. *)
Definition truthy (v : json) : bool :=
  match v with
  | JNull => false
  | JBool b => b
  | JNum zero _ => negb zero
  | JStr s => negb (bool_decide (s = ""))
  | JList items => negb (bool_decide (items = []))
  | JDict fields => negb (bool_decide (fields = []))
  end.

(** [d.get(key)] on the fields of a dict, in which a key occurs once. *)
Fixpoint lookup_field (key : string) (fields : list (string * json))
  : option json :=
  match fields with
  | [] => None
  | (k, v) :: rest => if decide (k = key) then Some v else lookup_field key rest
  end.

Section Generate.

Variable ast_parse : string → Analyzer.SyntaxError + list Ast.node.
Variable GEMINI_API_KEY : string.

(** [GENERATE_PROMPT % (watch_block, url, html)] and
    [FIX_PROMPT % (errors, code)]: the two templates, filled in. *)
Variable GENERATE_PROMPT : string → string → string → string.
Variable FIX_PROMPT : string → string → string.

(** The block about the event watched for, built from [watch_for]. *)
Variable watch_block_for : string → string.

(** [client.models.generate_content] on the attempt of a number and a
    prompt: the exception raised, or [response.text]. *)
Variable generate_content : nat → string → string + string.

(** [_parse_response]: the value read from the response, if any. *)
Variable _parse_response : string → option json.

(** What lets an attempt return: the response parsed to a dict whose
    [plugin_code] is a string the validator has nothing against. *)
Definition accepted (text : string) (result : json) : Prop :=
  _parse_response text = Some result
  ∧ ∃ fields code,
      result = JDict fields
      ∧ default (JStr "") (lookup_field "plugin_code" fields) = JStr code
      ∧ Analyzer.validate_plugin_code ast_parse code = [].

(** How one attempt ends: with the result returned, with None returned
    at once (an exception), or with the prompt for the next attempt. *)
Inductive attempt_end :=
| Return (result : json)
| Abort
| Next (prompt : string).

(** The body of the loop of [generate_plugin]. *)
Definition attempt_body (max_retries : Z) (attempt : nat) (prompt : string)
  : attempt_end :=
  match generate_content attempt prompt with
  | inl exc => Abort
  | inr response_text =>
      match _parse_response response_text with
      | None =>
          if bool_decide (Z.of_nat attempt < max_retries)%Z then
            Next (FIX_PROMPT "Response was not valid JSON"
                    (String.substring 0 2000 response_text))
          else Next prompt
      | Some result =>
          if negb (truthy result) then
            if bool_decide (Z.of_nat attempt < max_retries)%Z then
              Next (FIX_PROMPT "Response was not valid JSON"
                      (String.substring 0 2000 response_text))
            else Next prompt
          else
            match result with
            | JDict fields =>
                match default (JStr "") (lookup_field "plugin_code" fields) with
                | JStr code =>
                    match Analyzer.validate_plugin_code ast_parse code with
                    | [] => Return result
                    | errors =>
                        if bool_decide (Z.of_nat attempt < max_retries)%Z then
                          Next (FIX_PROMPT (Py.join Py.nl errors) code)
                        else Next prompt
                    end
                | _ => Abort
                end
            | _ => Abort
            end
      end
  end.

(** [for attempt in range(1 + max_retries)], from attempt [attempt] with
    [left] attempts to go: what is returned, and the prompts sent. *)
Fixpoint attempts (max_retries : Z) (left : nat) (attempt : nat)
    (prompt : string) : option json * list string :=
  match left with
  | O => (None, [])
  | S left' =>
      match attempt_body max_retries attempt prompt with
      | Return result => (Some result, [prompt])
      | Abort => (None, [prompt])
      | Next prompt' =>
          let '(r, sent) := attempts max_retries left' (S attempt) prompt' in
          (r, prompt :: sent)
      end
  end.

Definition generate_plugin (url html watch_for : string) (max_retries : Z)
  : option json * list string :=
  if bool_decide (GEMINI_API_KEY = "") then (None, [])
  else
    let truncated_html := String.substring 0 (Z.to_nat 500000) html in
    let watch_block :=
      if bool_decide (watch_for = "") then "" else watch_block_for watch_for in
    let prompt := GENERATE_PROMPT watch_block url truncated_html in
    attempts max_retries (Z.to_nat (1 + max_retries)) 0 prompt.

End Generate.

End Generator.

(** ** monitor_bms.py *)

(** The loop of [main] and [check_availability]; the log records are
    left out. *)
Module Bms.

Inductive State :=
| S_UNKNOWN | S_NO_SEMIS_LISTED | S_COMING_SOON | S_AVAILABLE | S_SOLD_OUT.

#[global] Instance State_eq_dec : EqDecision State.
Proof. solve_decision. Defined.

Definition state_value (s : State) : string :=
  match s with
  | S_UNKNOWN => "UNKNOWN"
  | S_NO_SEMIS_LISTED => "NO_SEMIS"
  | S_COMING_SOON => "COMING_SOON"
  | S_AVAILABLE => "AVAILABLE"
  | S_SOLD_OUT => "SOLD_OUT"
  end.

Definition BMS_BACKOFF_FACTOR : Z := 2.
Definition BMS_MAX_BACKOFF : Z := 600.

(** The calls to the two notifiers. *)
Inductive call :=
| Telegram (message : string)
| Macos (title message : string).

Section Loop.

Variable POLL_INTERVAL : Z.
Variable EVENT_URL : string.

(** [detect_state] on a page fetched. *)
Variable detect_state : string → State * string.

(** [check_availability], from what the two tiers fetched. *)
Definition check_availability (curl playwright : option string)
  : State * string * string :=
  match curl with
  | Some html => let '(s, d) := detect_state html in (s, d, "curl_cffi")
  | None =>
      match playwright with
      | Some html => let '(s, d) := detect_state html in (s, d, "Playwright")
      | None => (S_UNKNOWN, "fetch failed", "Failed")
      end
  end.

(** The globals and locals the loop of [main] carries. *)
Record loop := mkLoop {
  previous_state : State;
  check_count : Z;
  current_backoff : Z;
  calls : list call
}.

Definition AVAILABLE_ALERT (details : string) (n : Z) : string :=
  "🚨🏏 *TICKETS AVAILABLE!*" +:+ Py.nl +:+ Py.nl
  +:+ "T20 WC 2026 Semi-Finals at Wankhede" +:+ Py.nl
  +:+ "[BOOK NOW → BookMyShow](" +:+ EVENT_URL +:+ ")" +:+ Py.nl +:+ Py.nl
  +:+ details +:+ Py.nl
  +:+ "Detected at check #" +:+ pretty n.

Definition LISTED_ALERT (details : string) : string :=
  "⚠️ *Semi-Finals now listed on BMS!*" +:+ Py.nl +:+ Py.nl
  +:+ "Status: Coming Soon (not bookable yet)" +:+ Py.nl
  +:+ details +:+ Py.nl +:+ Py.nl
  +:+ "Will alert you the moment booking opens." +:+ Py.nl
  +:+ "[View page](" +:+ EVENT_URL +:+ ")".

Definition CHANGE_NOTE (prev curr details : string) : string :=
  "ℹ️ State changed: " +:+ prev +:+ " → " +:+ curr +:+ Py.nl +:+ details.

(** One pass of [while running], the sleep aside, on what
    [check_availability] returned. *)
Definition step (l : loop) (checked : State * string * string) : loop :=
  let '(state, details, tier) := checked in
  let n := (check_count l + 1)%Z in
  let prev := previous_state l in
  let alert1 :=
    if bool_decide (state = S_AVAILABLE ∧ prev ≠ S_AVAILABLE) then
      [Telegram (AVAILABLE_ALERT details n);
       Macos "BMS TICKETS AVAILABLE!" "T20 WC 2026 Semi-Finals — Go book now!"]
    else [] in
  let alert2 :=
    if bool_decide (state = S_COMING_SOON ∧ prev = S_NO_SEMIS_LISTED) then
      [Telegram (LISTED_ALERT details);
       Macos "BMS: Semi-Finals Listed!" "Coming Soon — not bookable yet"]
    else [] in
  let alert3 :=
    if bool_decide (state ≠ prev ∧ state ≠ S_AVAILABLE ∧ state ≠ S_COMING_SOON)
    then
      if bool_decide (prev ≠ S_UNKNOWN) then
        [Telegram (CHANGE_NOTE (state_value prev) (state_value state) details)]
      else []
    else [] in
  let backoff :=
    if bool_decide (tier = "Failed") then
      Z.min (current_backoff l * BMS_BACKOFF_FACTOR) BMS_MAX_BACKOFF
    else POLL_INTERVAL in
  mkLoop state n backoff (calls l ++ alert1 ++ alert2 ++ alert3).

(** The loop as [main] enters it. *)
Definition initial : loop := mkLoop S_UNKNOWN 0 POLL_INTERVAL [].

End Loop.

End Bms.

(** ** monitor.cmd_add *)

(** What [cmd_add] prints is left out, and with it the fetch and the
    smoke test of the branch that found a plugin, which only print. *)
Module Commands.
Import PluginLoader Watchlist Generator.

(** How [cmd_add] ends: it returns, it calls [sys.exit(1)], or an
    exception leaves it.  [OffContract] stands for a generated result in
    which [platform_name], [plugin_code] or [event_name] is not a string,
    against what [generate_plugin] documents; what the code does then is
    not modelled, and the world paired with [OffContract] says nothing
    about what such a run leaves behind. *)
Inductive outcome :=
| Returned
| Exit1
| Raised (exc : string)
| OffContract.

Section Add.

Variable Regex : Type.
Variable re_compile : string → option Regex.
Variable re_search : Regex → string → bool.
Variable exec_module : string → string → option PyModule.
Variable PLUGINS_DIR : string.
Variable ast_parse : string → Analyzer.SyntaxError + list Ast.node.
Variable GEMINI_API_KEY : string.
Variable GENERATE_PROMPT : string → string → string → string.
Variable FIX_PROMPT : string → string → string.
Variable watch_block_for : string → string.
Variable generate_content : nat → string → string + string.
Variable _parse_response : string → option json.

(** [fetch_page(url, allow_non_200)] *)
Variable fetch_page : string → bool → option string * string.

(** [strip_html_noise] *)
Variable strip_html_noise : string → string.

(** The time [watchlist.add] reads. *)
Variable now : string.

(** The watch list and the registry. *)
Record world := mkWorld {
  w_db : table;
  w_reg : registry Regex
}.

(** The part of [cmd_add] from the result [generate_plugin] returned. *)
Definition add_generated (url : string) (result : json) (db : table)
    (reg1 : registry Regex) : outcome * world :=
  match result with
  | JDict fields =>
      match lookup_field "platform_name" fields with
      | None => (Raised "KeyError: 'platform_name'", mkWorld db reg1)
      | Some platform_name =>
          match lookup_field "plugin_code" fields with
          | None => (Raised "KeyError: 'plugin_code'", mkWorld db reg1)
          | Some plugin_code =>
              match platform_name, plugin_code,
                    default (JStr "") (lookup_field "event_name" fields) with
              | JStr platform_name, JStr plugin_code, JStr event_name =>
                  let reg2 :=
                    (save_plugin Regex PLUGINS_DIR platform_name plugin_code
                       reg1).2 in
                  match reload_plugin Regex re_compile exec_module
                          platform_name reg2 with
                  | (None, reg3) => (Exit1, mkWorld db reg3)
                  | (Some plugin, reg3) =>
                      (Returned,
                       mkWorld (add now url platform_name event_name db) reg3)
                  end
              | _, _, _ => (OffContract, mkWorld db reg1)
              end
          end
      end
  | _ => (Raised "TypeError", mkWorld db reg1)
  end.

Definition cmd_add (url watch_for : string) (w : world) : outcome * world :=
  match get url (w_db w) with
  | Some existing => (Returned, w)
  | None =>
      let matched :=
        if bool_decide (watch_for = "") then
          find_plugin_for_url Regex re_compile re_search exec_module url
            (w_reg w)
        else (None, w_reg w) in
      match matched with
      | (Some plugin, reg1) =>
          (Returned, mkWorld (add now url (name plugin) "" (w_db w)) reg1)
      | (None, reg1) =>
          match fetch_page url true with
          | (None, tier) => (Exit1, mkWorld (w_db w) reg1)
          | (Some html, tier) =>
              let cleaned_html := strip_html_noise html in
              match (generate_plugin ast_parse GEMINI_API_KEY GENERATE_PROMPT
                       FIX_PROMPT watch_block_for generate_content
                       _parse_response url cleaned_html watch_for 2).1 with
              | None => (Exit1, mkWorld (w_db w) reg1)
              | Some result =>
                  if negb (truthy result) then (Exit1, mkWorld (w_db w) reg1)
                  else add_generated url result (w_db w) reg1
              end
          end
      end
  end.

End Add.

Arguments w_db {Regex} _.
Arguments w_reg {Regex} _.
Arguments mkWorld {Regex} _ _.

End Commands.

(** ** Sample inputs *)

Module Samples.
Import Ast Analyzer PluginLoader Watchlist.

Definition SRC_IMPORT_OS : string := "import os".
Definition SRC_EVAL : string := "eval(x)".
Definition SRC_BROKEN : string := "def (".
Definition SRC_NESTED : string :=
  "def parse(html, url):" +:+ Py.nl +:+ "    PLATFORM_PATTERNS = []".
Definition SRC_GOOD : string :=
  "PLATFORM_PATTERNS = []" +:+ Py.nl +:+ "def parse(html, url):" +:+ Py.nl
  +:+ "    pass".

Definition SRC_ANNOTATED : string :=
  "PLATFORM_PATTERNS: list = []" +:+ Py.nl +:+ "def parse(html, url):"
  +:+ Py.nl +:+ "    pass".

(** An attribute chain a.b.b...b of 100000 links. *)
Definition SRC_DEEP : string :=
  "a" +:+ Nat.iter (Z.to_nat 100000) (String.append ".b") "".

Definition two_args : node :=
  Other "arguments" [Other "arg" []; Other "arg" []].

Definition patterns_assign : node :=
  Assign [Name "PLATFORM_PATTERNS" StoreCtx] (Other "List" [LoadCtx]).

(** The module bodies [ast.parse] gives for the sample sources. *)
Definition sample_parse (code : string) : SyntaxError + list node :=
  if decide (code = SRC_IMPORT_OS) then
    inr [Import [mkAlias "os" None]]
  else if decide (code = SRC_EVAL) then
    inr [Other "Expr" [Call (Name "eval" LoadCtx) [Name "x" LoadCtx] []]]
  else if decide (code = SRC_NESTED) then
    inr [FunctionDef "parse" two_args [patterns_assign] [] None []]
  else if decide (code = SRC_GOOD) then
    inr [patterns_assign;
         FunctionDef "parse" two_args [Other "Pass" []] [] None []]
  else if decide (code = SRC_ANNOTATED) then
    inr [Other "AnnAssign"
           [Name "PLATFORM_PATTERNS" StoreCtx; Name "list" LoadCtx;
            Other "List" [LoadCtx]];
         FunctionDef "parse" two_args [Other "Pass" []] [] None []]
  else inl (mkSyntaxError "invalid syntax (<unknown>, line 1)").

(** The same with the source [ast.parse] gives up on: converting the
    tree of [SRC_DEEP] exceeds the recursion limit. *)
Definition sample_parse_raising (code : string) : Raising.parse_result :=
  if decide (code = SRC_DEEP) then
    Raising.RaisesOther
      "RecursionError: maximum recursion depth exceeded during ast construction"
  else Raising.handled (sample_parse code).

(** Literal patterns: compiled as they are, searched as substrings. *)
Fixpoint contains (needle hay : string) : bool :=
  String.prefix needle hay
  || match hay with
     | EmptyString => false
     | String _ rest => contains needle rest
     end.

Definition literal_compile (p : string) : option string := Some p.

Definition SRC_EXAMPLE : string :=
  "from models import CheckResult, TicketState" +:+ Py.nl
  +:+ "PLATFORM_PATTERNS = ['example']" +:+ Py.nl
  +:+ "def parse(html, url):" +:+ Py.nl
  +:+ "    return CheckResult(state=TicketState.AVAILABLE)".

Definition SRC_OTHER : string :=
  "from models import CheckResult, TicketState" +:+ Py.nl
  +:+ "PLATFORM_PATTERNS = ['other']" +:+ Py.nl
  +:+ "def parse(html, url):" +:+ Py.nl
  +:+ "    return CheckResult(state=TicketState.SOLD_OUT)".

Definition SRC_CRASH : string :=
  "PLATFORM_PATTERNS = ['crash']" +:+ Py.nl
  +:+ "def parse(html, url):" +:+ Py.nl
  +:+ "    raise ValueError('boom')".

Definition always (s : TicketState) : parse_fn_t :=
  λ _ _, inr (mkCheckResult s "" None).

(** What executing the sample sources gives. *)
Definition sample_exec (name code : string) : option PyModule :=
  if decide (code = SRC_EXAMPLE) then
    Some (mkPyModule (Some ["example"]) (Some (always AVAILABLE)))
  else if decide (code = SRC_OTHER) then
    Some (mkPyModule (Some ["other"]) (Some (always SOLD_OUT)))
  else if decide (code = SRC_CRASH) then
    Some (mkPyModule (Some ["crash"]) (Some (λ _ _, inl "boom")))
  else None.

Definition URL : string := "https://example.com/e".

(** Two stored plugins, [a] and [a-b], nothing loaded yet. *)
Definition two_plugins : registry string :=
  mkRegistry {[ "a.py" := SRC_EXAMPLE; "a-b.py" := SRC_EXAMPLE ]} ∅.

(** Plugin [a] cached from [SRC_EXAMPLE]. *)
Definition cached_a : Plugin string :=
  mkPlugin "a" ["example"] (always AVAILABLE) ["example"].

Definition warm : registry string :=
  mkRegistry {[ "a.py" := SRC_EXAMPLE ]} {[ "a" := cached_a ]}.

Definition row0 (plugin added : string) : row :=
  mkRow plugin "" added "UNKNOWN" "" 0.

Definition one_row : table := {[ URL := row0 "a" "2024-01-01" ]}.

Definition entry0 : WatchEntry :=
  mkWatchEntry URL "a" "" "2024-01-01" "UNKNOWN" "" 0.

Definition fetch_none (u : string) : option string * string :=
  (None, "none").

Definition fetch_ok (u : string) : option string * string :=
  (Some "<html></html>", "curl_cffi").

Definition clock (u : string) : string := "2024-01-02T00:00:00+00:00".

(** Plugin [a] stored with a [parse] that raises, nothing loaded yet. *)
Definition crashing : registry string :=
  mkRegistry {[ "a.py" := SRC_CRASH ]} ∅.

Definition crashing_a : Plugin string :=
  mkPlugin "a" ["crash"] (λ _ _, inl "boom") ["crash"].

(** The loop about to process [entry0], its plugin cached. *)
Definition polling : Monitor.poll_state string :=
  Monitor.mkPoll one_row ∅ warm 1 [].

(** The loop at start-up over [one_row], with the crashing plugin. *)
Definition polling_crash : Monitor.poll_state string :=
  Monitor.start string one_row crashing.

(** A plugin whose [parse] raises on an empty page. *)
Definition flaky_a : Plugin string :=
  mkPlugin "a" ["example"]
    (λ html _, if decide (html = "") then inl "boom"
               else inr (mkCheckResult AVAILABLE "" None))
    ["example"].

Definition polling_flaky : Monitor.poll_state string :=
  Monitor.mkPoll one_row ∅ (mkRegistry ∅ {[ "a" := flaky_a ]}) 1 [].

Definition fetch_empty (u : string) : option string * string :=
  (Some "", "curl_cffi").

(** Two versions of a plugin that differ in the pattern alone, and so
    have the same size. *)
Definition SRC_ALPHA : string :=
  "from models import CheckResult, TicketState" +:+ Py.nl
  +:+ "PLATFORM_PATTERNS = ['alpha']" +:+ Py.nl
  +:+ "def parse(html, url):" +:+ Py.nl
  +:+ "    return CheckResult(state=TicketState.AVAILABLE)".

Definition SRC_BRAVO : string :=
  "from models import CheckResult, TicketState" +:+ Py.nl
  +:+ "PLATFORM_PATTERNS = ['bravo']" +:+ Py.nl
  +:+ "def parse(html, url):" +:+ Py.nl
  +:+ "    return CheckResult(state=TicketState.AVAILABLE)".

(** Code objects, given by the source they were compiled from. *)
Definition compile_text (code : string) : option string := Some code.

Definition exec_versions (name code : string) : option PyModule :=
  if decide (code = SRC_ALPHA) then
    Some (mkPyModule (Some ["alpha"]) (Some (always AVAILABLE)))
  else if decide (code = SRC_BRAVO) then
    Some (mkPyModule (Some ["bravo"]) (Some (always AVAILABLE)))
  else sample_exec name code.

(** An empty plugins directory, nothing compiled, nothing loaded. *)
Definition empty_disk : Disk.state string string := Disk.mkState ∅ ∅ ∅.

(** Plugin [a] saved from [SRC_ALPHA] and loaded, which leaves its
    bytecode file. *)
Definition loaded_alpha : Disk.state string string :=
  (Disk.load_plugin string literal_compile string compile_text exec_versions
     "a"
     (Disk.save_plugin string string "plugins" 1700000000 "a" SRC_ALPHA
        empty_disk).2).2.

(** No plugin stored, nothing cached. *)
Definition no_plugins : registry string := mkRegistry ∅ ∅.

(** A model that answers every prompt with a plugin named [good] whose
    code is [SRC_GOOD]. *)
Definition answer (attempt : nat) (prompt : string) : string + string :=
  inr "good".

Definition read_answer (text : string) : option Generator.json :=
  Some (Generator.JDict [("platform_name", Generator.JStr "good");
                         ("plugin_code", Generator.JStr SRC_GOOD)]).

Definition generate_prompt (watch_block url html : string) : string :=
  "generate " +:+ url.

Definition fix_prompt (errors code : string) : string := "fix " +:+ errors.

Definition watch_block (watch_for : string) : string := watch_for.

Definition fetch_any (u : string) (allow_non_200 : bool)
  : option string * string :=
  (Some "<html></html>", "curl_cffi").

(** Executing [SRC_GOOD] gives no patterns and a [parse] that returns
    nothing of use; the other samples are as in [sample_exec]. *)
Definition sample_exec_good (name code : string) : option PyModule :=
  if decide (code = SRC_GOOD) then
    Some (mkPyModule (Some []) (Some (always UNKNOWN)))
  else sample_exec name code.

Definition empty_world : Commands.world string :=
  Commands.mkWorld ∅ no_plugins.

End Samples.

(** * Properties *)

(** ** [ast.walk] reaches every node of the tree, once each *)

Section WalkFacts.
Import Ast.

Lemma total_size_app (l k : list node) :
  total_size (l ++ k) = total_size l + total_size k.
Proof. unfold total_size. by rewrite map_app, list_sum_app. Qed.

Lemma size_alias_children (names : list alias) :
  total_size (map Alias names) = length names.
Proof.
  unfold total_size. induction names as [|a names IH]; simpl; [done|].
  by rewrite IH.
Qed.

Lemma size_children (n : node) : size n = S (total_size (iter_child_nodes n)).
Proof.
  destruct n as [body|names|m names lv|a|f args kws|i c|v a c|ts v
                |nm args body decos [r|] tps|nm args body decos [r|] tps
                |cls ch];
    simpl; rewrite ?size_alias_children;
    unfold total_size; simpl; rewrite ?map_app, ?list_sum_app; simpl; try lia.
Qed.

Lemma size_pos (n : node) : 0 < size n.
Proof. rewrite size_children. lia. Qed.

Lemma total_size_zero (l : list node) : total_size l = 0 → l = [].
Proof.
  destruct l as [|n l]; [done|]. unfold total_size. simpl.
  pose proof (size_pos n). lia.
Qed.

(** With fuel for every queued node and its descendants the queue runs
    empty: as many nodes are yielded as the queue holds in all. *)
Lemma walk_queue_length (fuel : nat) : ∀ todo,
  total_size todo ≤ fuel → length (walk_queue fuel todo) = total_size todo.
Proof.
  induction fuel as [|fuel IH]; intros todo Hle.
  - assert (total_size todo = 0) as H0 by lia.
    by rewrite (total_size_zero _ H0).
  - destruct todo as [|n rest]; [done|]. simpl.
    change (total_size (n :: rest)) with (size n + total_size rest) in *.
    rewrite size_children in *.
    rewrite IH; rewrite total_size_app; lia.
Qed.

Lemma walk_queue_elem (fuel : nat) : ∀ todo x,
  total_size todo ≤ fuel →
  x ∈ walk_queue fuel todo ↔ ∃ n, n ∈ todo ∧ subnode x n.
Proof.
  induction fuel as [|fuel IH]; intros todo x Hle.
  - assert (total_size todo = 0) as H0 by lia.
    rewrite (total_size_zero _ H0). simpl. split.
    + by intros ?%elem_of_nil.
    + by intros (n & ?%elem_of_nil & _).
  - destruct todo as [|n rest]; simpl.
    { split; [by intros ?%elem_of_nil | by intros (m & ?%elem_of_nil & _)]. }
    change (total_size (n :: rest)) with (size n + total_size rest) in Hle.
    rewrite size_children in Hle.
    rewrite elem_of_cons, IH by (rewrite total_size_app; lia).
    split.
    + intros [->|(m & Hm & Hsub)].
      * exists n. split; [left | constructor].
      * apply elem_of_app in Hm as [Hm|Hm].
        -- exists m. split; [by right | done].
        -- exists n. split; [left | by eapply subnode_child].
    + intros (m & Hm & Hsub). apply elem_of_cons in Hm as [->|Hm].
      * inversion Hsub as [|? c Hc Hx]; subst; [by left|].
        right. exists c. split; [apply elem_of_app; by right | done].
      * right. exists m. split; [apply elem_of_app; by left | done].
Qed.

Lemma walk_length (tree : node) : length (walk tree) = size tree.
Proof.
  unfold walk. rewrite walk_queue_length; unfold total_size; simpl; lia.
Qed.

Lemma walk_elem (tree x : node) : x ∈ walk tree ↔ subnode x tree.
Proof.
  unfold walk. rewrite walk_queue_elem by (unfold total_size; simpl; lia).
  split.
  - by intros (n & ->%list_elem_of_singleton & H).
  - intros H. exists tree. split; [by apply list_elem_of_singleton | done].
Qed.

Lemma subnode_body (stmt : node) (body : list node) :
  stmt ∈ body → subnode stmt (Module_ body).
Proof. intros H. eapply subnode_child; [exact H | constructor]. Qed.

End WalkFacts.

(** ** The validator *)

Section ValidatorFacts.
Import Ast Analyzer.

Lemma fold_visit_errors (l : list node) : ∀ st,
  errors (fold_left visit l st)
  = errors st ++ concat (map (λ n, errors (visit fresh n)) l).
Proof.
  induction l as [|n l IH]; intros st; simpl.
  - by rewrite app_nil_r.
  - rewrite IH, app_assoc. f_equal. destruct n; simpl; by rewrite ?app_nil_r.
Qed.

Lemma fold_visit_has_patterns (l : list node) : ∀ st,
  has_patterns (fold_left visit l st)
  = has_patterns st || existsb Claimed.binds_patterns l.
Proof.
  induction l as [|n l IH]; intros st; simpl.
  - by rewrite orb_false_r.
  - rewrite IH, orb_assoc. f_equal. destruct n; simpl; by rewrite ?orb_false_r.
Qed.

Lemma fold_visit_has_parse (l : list node) : ∀ st,
  has_parse (fold_left visit l st)
  = has_parse st || existsb Claimed.defines_parse l.
Proof.
  induction l as [|n l IH]; intros st; simpl.
  - by rewrite orb_false_r.
  - rewrite IH, orb_assoc. f_equal. destruct n; simpl; by rewrite ?orb_false_r.
Qed.

(** The closed form of [validate_tree]: the violations of the nodes in
    walk order, then the two required-symbol checks. *)
Lemma validate_tree_eq (tree : node) :
  validate_tree tree
  = concat (map (λ n, errors (visit fresh n)) (walk tree))
    ++ (if existsb Claimed.binds_patterns (walk tree) then [] else [MISSING_PATTERNS])
    ++ (if existsb Claimed.defines_parse (walk tree) then [] else [MISSING_PARSE]).
Proof.
  unfold validate_tree.
  by rewrite fold_visit_errors, fold_visit_has_patterns, fold_visit_has_parse.
Qed.

Lemma node_violation (tree n : node) (msg : string) :
  subnode n tree → msg ∈ errors (visit fresh n) → msg ∈ validate_tree tree.
Proof.
  intros Hsub Hmsg. rewrite validate_tree_eq. apply elem_of_app. left.
  apply list_elem_of_In, in_concat. exists (errors (visit fresh n)).
  split; [|by apply list_elem_of_In].
  apply in_map_iff. exists n. split; [done|].
  by apply list_elem_of_In, walk_elem.
Qed.

Lemma existsb_walk (f : node → bool) (tree : node) :
  existsb f (walk tree) = true ↔ ∃ n, subnode n tree ∧ f n = true.
Proof.
  rewrite existsb_exists. split; intros (n & H1 & H2); exists n.
  - split; [by apply walk_elem, list_elem_of_In | done].
  - split; [by apply list_elem_of_In, walk_elem | done].
Qed.




Lemma loop_errors_forbidden (n : node) (msg : string) :
  msg ∈ errors (visit fresh n) → String.prefix "Forbidden " msg = true.
Proof.
  destruct n as [body|names|[[|c m]|] names lv|a|f args kws|i c|v a c|ts v
                |nm args body decos r tps|nm args body decos r tps|cls ch];
    simpl;
    try (by intros ?%elem_of_nil).
  - unfold import_errors. intros (a & Ha & Hf)%list_elem_of_omap.
    destruct (decide _); by simplify_eq.
  - destruct (decide _); [by intros ?%elem_of_nil|].
    by intros ->%list_elem_of_singleton.
  - unfold call_errors. destruct (called_name f); [|by intros ?%elem_of_nil].
    destruct (decide _); [|by intros ?%elem_of_nil].
    by intros ->%list_elem_of_singleton.
Qed.

Lemma loop_errors_not (tree : node) (msg : string) :
  String.prefix "Forbidden " msg = false →
  filter (λ s, s = msg) (concat (map (λ n, errors (visit fresh n)) (walk tree))) = [].
Proof.
  intros Hmsg. destruct (filter _ _) as [|s rest] eqn:Hf; [done|]. exfalso.
  assert (s ∈ s :: rest) as Hs by left. rewrite <- Hf in Hs.
  apply list_elem_of_filter in Hs as [-> Hs].
  apply list_elem_of_In, in_concat in Hs as (l & Hl & Hs).
  apply in_map_iff in Hl as (n & <- & _).
  apply list_elem_of_In, loop_errors_forbidden in Hs. congruence.
Qed.

(** Every violation of a source that parsed is a forbidden import, a
    forbidden call or one of the two missing symbols. *)
Lemma validate_tree_violations (tree : node) (msg : string) :
  msg ∈ validate_tree tree →
  String.prefix "Forbidden " msg = true
  ∨ msg = MISSING_PATTERNS ∨ msg = MISSING_PARSE.
Proof.
  rewrite validate_tree_eq. intros [Hm|[Hm|Hm]%elem_of_app]%elem_of_app.
  - left. apply list_elem_of_In, in_concat in Hm as (l & Hl & Hm).
    apply in_map_iff in Hl as (n & <- & _).
    by apply list_elem_of_In, loop_errors_forbidden in Hm.
  - destruct (existsb _ _); [by apply elem_of_nil in Hm|].
    apply list_elem_of_singleton in Hm. by right; left.
  - destruct (existsb _ _); [by apply elem_of_nil in Hm|].
    apply list_elem_of_singleton in Hm. by right; right.
Qed.

(** On the sources [ast.parse] returns or raises [SyntaxError] for, the
    call returns, and returns what [validate_plugin_code] gives. *)
Lemma validate_plugin_code_handled
    (ast_parse : string → SyntaxError + list node)
    (ast_parse' : string → Raising.parse_result) (code : string) :
  ast_parse' code = Raising.handled (ast_parse code) →
  Raising.validate_plugin_code ast_parse' code
  = inr (validate_plugin_code ast_parse code).
Proof.
  intros H. unfold Raising.validate_plugin_code, validate_plugin_code.
  rewrite H. by destruct (ast_parse code).
Qed.

End ValidatorFacts.

Section ValidatorClaims.
Import Ast Analyzer.
Variable ast_parse : string → SyntaxError + list node.


(** C5. When the source parses and its tree holds, anywhere, a call whose
    target is a simple name or an attribute name of the deny-list,
    [validate_plugin_code] returns a list containing the forbidden-call
    violation for that name. *)
Theorem C5_forbidden_call_flagged (code : string) (body : list node)
    (nm : string) :
  ast_parse code = inr body →
  Claimed.calls (Module_ body) nm →
  nm ∈ Claimed.deny_list →
  "Forbidden call: " +:+ nm +:+ "()" ∈ validate_plugin_code ast_parse code.
Proof.
  intros Hparse Hcall Hnm.
  assert (nm ∈ FORBIDDEN_CALLS) as Hforb.
  { unfold Claimed.deny_list in Hnm. unfold FORBIDDEN_CALLS.
    repeat (apply elem_of_cons in Hnm as [->|Hnm]; [set_solver|]).
    by apply elem_of_nil in Hnm. }
  unfold validate_plugin_code. rewrite Hparse.
  destruct Hcall as [ctx args kws Hsub | v ctx args kws Hsub];
    (eapply node_violation; [exact Hsub|]); simpl; unfold call_errors; simpl;
    rewrite decide_True by done; by apply list_elem_of_singleton.
Qed.

(** C7, as the code has it. When the source parses, the violation for a
    missing PLATFORM_PATTERNS occurs in the result exactly once when no
    plain assignment statement anywhere in the tree has the simple name
    PLATFORM_PATTERNS itself among its targets, and not at all otherwise;
    likewise the violation for a missing parse and plain [def] statements
    of the name parse anywhere in the tree.  Both missing gives both.  A
    source whose module body holds such an assignment gets no violation
    for PLATFORM_PATTERNS, one whose module body holds such a [def] none
    for parse; both are definitions at module scope. *)
Theorem C7_required_symbols_anywhere (code : string) (body : list node) :
  ast_parse code = inr body →
  let v := validate_plugin_code ast_parse code in
  let occurrences (msg : string) := length (filter (λ s, s = msg) v) in
  (Claimed.patterns_anywhere (Module_ body) → occurrences MISSING_PATTERNS = 0)
  ∧ (¬ Claimed.patterns_anywhere (Module_ body) → occurrences MISSING_PATTERNS = 1)
  ∧ (Claimed.parse_anywhere (Module_ body) → occurrences MISSING_PARSE = 0)
  ∧ (¬ Claimed.parse_anywhere (Module_ body) → occurrences MISSING_PARSE = 1)
  ∧ (existsb Claimed.binds_patterns body = true →
     occurrences MISSING_PATTERNS = 0
     ∧ Claimed.patterns_at_module_scope body = true)
  ∧ (existsb Claimed.defines_parse body = true →
     occurrences MISSING_PARSE = 0
     ∧ Claimed.parse_at_module_scope body = true).
Proof.
  intros Hparse v occurrences. subst v occurrences. simpl.
  unfold validate_plugin_code. rewrite Hparse, validate_tree_eq.
  rewrite !filter_app, !loop_errors_not by done.
  unfold Claimed.patterns_anywhere, Claimed.parse_anywhere.
  rewrite <- !existsb_walk.
  assert (∀ f, existsb f body = true →
               existsb f (walk (Module_ body)) = true) as Hbody.
  { intros f (stmt & Hin & Hstmt)%existsb_exists. apply existsb_walk.
    exists stmt. split; [by apply subnode_body, list_elem_of_In | done]. }
  assert (∀ (f g : node → bool) (l : list node),
            (∀ n, f n = true → g n = true) →
            existsb f l = true → existsb g l = true) as Hmono.
  { intros f g l Hfg (stmt & Hin & Hstmt)%existsb_exists.
    apply existsb_exists. exists stmt. split; [done | by apply Hfg]. }
  pose proof (Hbody Claimed.binds_patterns) as Hpat.
  pose proof (Hbody Claimed.defines_parse) as Hdef.
  destruct (existsb Claimed.binds_patterns (walk _));
    destruct (existsb Claimed.defines_parse (walk _));
    (split; [done|]); (split; [done|]); (split; [done|]); (split; [done|]).
  all: split; intros H;
    (split; [first [done | by specialize (Hpat H) | by specialize (Hdef H)]|]);
    revert H; apply Hmono.
  all: try by intros [].
  all: intros [] Hn; try done; simpl in *; revert Hn; apply Hmono; by intros [].
Qed.

End ValidatorClaims.

Section ValidatorRaising.
Import Ast Analyzer.
Variable ast_parse : string → Raising.parse_result.

(** C6, as the code has it. When [ast.parse] raises [SyntaxError] on the
    source, [validate_plugin_code] returns exactly one violation, the one
    wording the syntax error, and nothing of the import, call or
    required-symbol checks shows in the result; no other source gets that
    result.  When [ast.parse] raises any other exception, no list of
    violations is returned: the exception leaves the call. *)
Theorem C6_syntax_error_reported (code : string) :
  (∀ e, ast_parse code = Raising.RaisesSyntaxError e →
        Raising.validate_plugin_code ast_parse code
        = inr ["SyntaxError: " +:+ str e])
  ∧ (∀ e, Raising.validate_plugin_code ast_parse code
          = inr ["SyntaxError: " +:+ str e] →
          ast_parse code = Raising.RaisesSyntaxError e)
  ∧ (∀ exc, ast_parse code = Raising.RaisesOther exc →
            Raising.validate_plugin_code ast_parse code = inl exc).
Proof.
  unfold Raising.validate_plugin_code. split; [|split].
  - by intros e ->.
  - intros [e]. destruct (ast_parse code) as [[e']|exc|body]; simpl.
    + intros [= He]. change (e' = e) in He. by subst.
    + done.
    + intros [= Hv]. exfalso.
      assert ("SyntaxError: " +:+ e ∈ validate_tree (Module_ body)) as Hin
        by (rewrite Hv; left).
      apply validate_tree_violations in Hin as [Hin|[Hin|Hin]]; done.
  - by intros exc ->.
Qed.

End ValidatorRaising.


Lemma C5_forbidden_call_flagged_witness :
  "Forbidden call: eval()"
    ∈ Analyzer.validate_plugin_code Samples.sample_parse Samples.SRC_EVAL.
Proof.
  apply (C5_forbidden_call_flagged Samples.sample_parse Samples.SRC_EVAL
           [Ast.Other "Expr"
              [Ast.Call (Ast.Name "eval" Ast.LoadCtx)
                 [Ast.Name "x" Ast.LoadCtx] []]] "eval").
  - reflexivity.
  - eapply Claimed.calls_name, Ast.subnode_child; [left|].
    eapply Ast.subnode_child; [left | constructor].
  - right. left.
Defined.

Lemma C6_syntax_error_reported_witness :
  Analyzer.Raising.validate_plugin_code Samples.sample_parse_raising
    Samples.SRC_BROKEN
  = inr ["SyntaxError: invalid syntax (<unknown>, line 1)"].
Proof.
  apply (proj1 (C6_syntax_error_reported Samples.sample_parse_raising
                  Samples.SRC_BROKEN)
           (Analyzer.mkSyntaxError "invalid syntax (<unknown>, line 1)")).
  by vm_compute.
Defined.

(** C6 as stated fails: [ast.parse] fails on a source nested too deeply
    with [RecursionError], which [validate_plugin_code] does not catch,
    so the call returns no violation at all: the exception leaves it. *)
Lemma C6_deep_source_raises :
  Samples.sample_parse_raising Samples.SRC_DEEP
  = Analyzer.Raising.RaisesOther
      "RecursionError: maximum recursion depth exceeded during ast construction"
  ∧ Analyzer.Raising.validate_plugin_code Samples.sample_parse_raising
      Samples.SRC_DEEP
    = inl "RecursionError: maximum recursion depth exceeded during ast construction"
  ∧ ¬ ∃ v, Analyzer.Raising.validate_plugin_code Samples.sample_parse_raising
             Samples.SRC_DEEP
           = inr [v].
Proof.
  assert (Samples.sample_parse_raising Samples.SRC_DEEP
          = Analyzer.Raising.RaisesOther
              "RecursionError: maximum recursion depth exceeded during ast construction")
    as H by (by vm_compute).
  unfold Analyzer.Raising.validate_plugin_code. rewrite H.
  split; [done|]. split; [done|]. by intros [v ?].
Qed.

(** C7 as stated fails both ways.  A source whose only assignment to
    PLATFORM_PATTERNS sits inside the body of [parse] defines no such
    binding at module scope, and is accepted without a violation.  A
    source that defines both at module scope, PLATFORM_PATTERNS by an
    annotated assignment, gets the violation for a missing
    PLATFORM_PATTERNS. *)
Lemma C7_module_scope_not_decisive :
  (Samples.sample_parse Samples.SRC_NESTED
   = inr [Ast.FunctionDef "parse" Samples.two_args [Samples.patterns_assign]
            [] None []]
   ∧ Claimed.patterns_at_module_scope
       [Ast.FunctionDef "parse" Samples.two_args [Samples.patterns_assign]
          [] None []]
     = false
   ∧ Analyzer.validate_plugin_code Samples.sample_parse Samples.SRC_NESTED
     = [])
  ∧ (Samples.sample_parse Samples.SRC_ANNOTATED
     = inr [Ast.Other "AnnAssign"
              [Ast.Name "PLATFORM_PATTERNS" Ast.StoreCtx;
               Ast.Name "list" Ast.LoadCtx; Ast.Other "List" [Ast.LoadCtx]];
            Ast.FunctionDef "parse" Samples.two_args [Ast.Other "Pass" []]
              [] None []]
     ∧ Claimed.patterns_at_module_scope
         [Ast.Other "AnnAssign"
            [Ast.Name "PLATFORM_PATTERNS" Ast.StoreCtx;
             Ast.Name "list" Ast.LoadCtx; Ast.Other "List" [Ast.LoadCtx]];
          Ast.FunctionDef "parse" Samples.two_args [Ast.Other "Pass" []]
            [] None []]
       = true
     ∧ Claimed.parse_at_module_scope
         [Ast.Other "AnnAssign"
            [Ast.Name "PLATFORM_PATTERNS" Ast.StoreCtx;
             Ast.Name "list" Ast.LoadCtx; Ast.Other "List" [Ast.LoadCtx]];
          Ast.FunctionDef "parse" Samples.two_args [Ast.Other "Pass" []]
            [] None []]
       = true
     ∧ Analyzer.validate_plugin_code Samples.sample_parse
         Samples.SRC_ANNOTATED
       = [Analyzer.MISSING_PATTERNS]).
Proof. by vm_compute. Qed.

Lemma C7_required_symbols_anywhere_witness :
  length (filter (λ s, s = Analyzer.MISSING_PARSE)
            (Analyzer.validate_plugin_code Samples.sample_parse Samples.SRC_EVAL))
  = 1.
Proof.
  pose proof (C7_required_symbols_anywhere Samples.sample_parse Samples.SRC_EVAL
                [Ast.Other "Expr"
                   [Ast.Call (Ast.Name "eval" Ast.LoadCtx)
                      [Ast.Name "x" Ast.LoadCtx] []]] eq_refl)
    as (_ & _ & _ & H & _).
  apply H. intros (n & Hsub & Hn).
  apply walk_elem in Hsub. vm_compute in Hsub.
  repeat (apply elem_of_cons in Hsub as [->|Hsub]; [discriminate Hn|]).
  by apply elem_of_nil in Hsub.
Defined.

(** ** The plugin registry *)

Section RegistryFacts.
Import PluginLoader.
Variable Regex : Type.
Variable re_compile : string → option Regex.
Variable re_search : Regex → string → bool.
Variable exec_module : string → string → option PyModule.
Variable PLUGINS_DIR : string.

Local Abbreviation load_plugin := (load_plugin Regex re_compile exec_module).
Local Abbreviation instantiate := (instantiate Regex re_compile exec_module).
Local Abbreviation resolve := (Claimed.resolve Regex re_compile exec_module).
Local Abbreviation load_all_step := (load_all_step Regex re_compile exec_module).
Local Abbreviation load_all_plugins := (load_all_plugins Regex re_compile exec_module).
Local Abbreviation find_plugin_for_url :=
  (find_plugin_for_url Regex re_compile re_search exec_module).
Local Abbreviation save_plugin := (save_plugin Regex PLUGINS_DIR).
Local Abbreviation reload_plugin := (reload_plugin Regex re_compile exec_module).
Local Abbreviation run_op := (run_op Regex re_compile re_search exec_module PLUGINS_DIR).
Local Abbreviation run_action :=
  (run_action Regex re_compile re_search exec_module PLUGINS_DIR).

Implicit Types st : registry Regex.

Lemma load_plugin_fst st (n : string) : (load_plugin n st).1 = resolve st n.
Proof.
  unfold PluginLoader.load_plugin, Claimed.resolve.
  destruct (_cache st !! n); [done|].
  destruct (files st !! file_of n) as [code|]; simpl; [|done].
  by destruct (instantiate n code).
Qed.

Lemma load_plugin_files st (n : string) :
  files (load_plugin n st).2 = files st.
Proof.
  unfold PluginLoader.load_plugin.
  destruct (_cache st !! n); [done|].
  destruct (files st !! file_of n) as [code|]; [|done].
  by destruct (instantiate n code).
Qed.

(** A load changes the cache at most at the name loaded, and only from
    absent to the plugin it returns. *)
Lemma load_plugin_cache st (n m : string) :
  _cache (load_plugin n st).2 !! m
  = match _cache st !! m with
    | Some p => Some p
    | None => if decide (n = m) then resolve st n else None
    end.
Proof.
  unfold PluginLoader.load_plugin, Claimed.resolve.
  destruct (_cache st !! n) as [p|] eqn:Hn.
  - simpl. destruct (_cache st !! m) eqn:Hm; [done|].
    case_decide; [congruence | done].
  - destruct (files st !! file_of n) as [code|]; simpl.
    + destruct (instantiate n code) as [q|] eqn:Hq; simpl.
      * rewrite lookup_insert. case_decide; [subst; by rewrite Hn|].
        by destruct (_cache st !! m).
      * destruct (_cache st !! m) eqn:Hm; [done|]. by case_decide.
    + destruct (_cache st !! m) eqn:Hm; [done|]. by case_decide.
Qed.

Lemma load_plugin_resolve st (n m : string) :
  resolve (load_plugin n st).2 m = resolve st m.
Proof.
  unfold Claimed.resolve at 1. rewrite load_plugin_cache, load_plugin_files.
  unfold Claimed.resolve.
  destruct (_cache st !! m) eqn:Hm; [done|].
  case_decide; [subst; rewrite Hm|]; [|done].
  by destruct (files st !! file_of m ≫= instantiate m).
Qed.

Lemma load_plugin_keeps st (n m : string) (p : Plugin Regex) :
  _cache st !! m = Some p → _cache (load_plugin n st).2 !! m = Some p.
Proof. intros H. by rewrite load_plugin_cache, H. Qed.

Lemma load_all_step_fst (acc : list (Plugin Regex)) st (f : string) :
  (load_all_step (acc, st) f).1
  = acc ++ omap (resolve st) (Py.drop_last 3 <$> filter Claimed.listed [f]).
Proof.
  unfold PluginLoader.load_all_step. rewrite filter_cons, filter_nil.
  destruct (decide (Claimed.listed f)) as [Hl|Hl]; unfold Claimed.listed in Hl.
  - rewrite Hl. simpl. rewrite <- load_plugin_fst.
    destruct (load_plugin (Py.drop_last 3 f) st) as [[plugin|] st']; simpl;
      by rewrite ?app_nil_r.
  - apply not_false_iff_true in Hl. rewrite Hl. simpl. by rewrite app_nil_r.
Qed.

(** The registry state one iteration leaves is the one a load leaves, or
    the one it started with. *)
Lemma load_all_step_snd (acc : list (Plugin Regex)) st (f : string) :
  (load_all_step (acc, st) f).2 = st
  ∨ (load_all_step (acc, st) f).2 = (load_plugin (Py.drop_last 3 f) st).2.
Proof.
  unfold PluginLoader.load_all_step. simpl.
  destruct (Py.startswith f "_" || negb (Py.endswith f ".py")); [by left|].
  right. by destruct (load_plugin (Py.drop_last 3 f) st) as [[plugin|] st'].
Qed.

Lemma load_all_fold (l : list string) st0 : ∀ acc st,
  (∀ m, resolve st m = resolve st0 m) →
  (fold_left load_all_step l (acc, st)).1
  = acc ++ omap (resolve st0) (Py.drop_last 3 <$> filter Claimed.listed l)
  ∧ (∀ m p, _cache st !! m = Some p →
            _cache (fold_left load_all_step l (acc, st)).2 !! m = Some p)
  ∧ files (fold_left load_all_step l (acc, st)).2 = files st.
Proof.
  induction l as [|f l IH]; intros acc st Hres; simpl.
  - by rewrite app_nil_r.
  - pose proof (load_all_step_fst acc st f) as Hfst.
    pose proof (load_all_step_snd acc st f) as Hsnd.
    destruct (load_all_step (acc, st) f) as [acc' st']. simpl in Hfst, Hsnd.
    subst acc'.
    assert (∀ m, resolve st' m = resolve st0 m) as Hres'.
    { intros m. destruct Hsnd as [->| ->]; [done|].
      by rewrite load_plugin_resolve. }
    destruct (IH (acc ++ omap (resolve st)
                           (Py.drop_last 3 <$> filter Claimed.listed [f]))
                st' Hres') as (H1 & H2 & H3).
    rewrite H1, H3. split; [|split].
    + rewrite <- app_assoc. f_equal.
      rewrite !filter_cons, filter_nil.
      destruct (decide (Claimed.listed f)); simpl; [|done].
      rewrite Hres. by destruct (resolve st0 (Py.drop_last 3 f)).
    + intros m p Hm. apply H2. destruct Hsnd as [Hs|Hs]; rewrite Hs; [done|].
      by apply load_plugin_keeps.
    + destruct Hsnd as [Hs|Hs]; rewrite Hs; [done|]. apply load_plugin_files.
Qed.

Lemma load_all_plugins_fst st :
  (load_all_plugins st).1
  = omap (resolve st) (Claimed.names_by_file Regex st).
Proof.
  unfold PluginLoader.load_all_plugins, Claimed.names_by_file.
  by destruct (load_all_fold (sorted_listdir Regex st) st [] st) as (-> & _).
Qed.

Lemma load_all_plugins_keeps st (m : string) (p : Plugin Regex) :
  _cache st !! m = Some p → _cache (load_all_plugins st).2 !! m = Some p.
Proof.
  unfold PluginLoader.load_all_plugins.
  destruct (load_all_fold (sorted_listdir Regex st) st [] st) as (_ & H & _);
    [done|]. apply H.
Qed.

Lemma find_plugin_for_url_snd (url : string) st :
  (find_plugin_for_url url st).2 = (load_all_plugins st).2.
Proof.
  unfold PluginLoader.find_plugin_for_url.
  by destruct (load_all_plugins st).
Qed.

Lemma find_plugin_for_url_fst (url : string) st :
  (find_plugin_for_url url st).1
  = find (λ p, matches_url Regex re_search p url) (load_all_plugins st).1.
Proof.
  unfold PluginLoader.find_plugin_for_url.
  by destruct (load_all_plugins st).
Qed.

(** A call that does not evict [m] leaves its cache entry. *)
Lemma run_op_keeps st (o : op) (m : string) (p : Plugin Regex) :
  evicts m o = false → _cache st !! m = Some p →
  _cache (run_op o st) !! m = Some p.
Proof.
  intros Hev Hm. destruct o as [n| |url|n code|n]; simpl in *.
  - by apply load_plugin_keeps.
  - by apply load_all_plugins_keeps.
  - rewrite find_plugin_for_url_snd. by apply load_all_plugins_keeps.
  - apply bool_decide_eq_false in Hev. by rewrite lookup_delete_ne.
  - apply bool_decide_eq_false in Hev. unfold PluginLoader.reload_plugin.
    apply load_plugin_keeps. simpl. by rewrite lookup_delete_ne.
Qed.

Lemma run_actions_keep (acts : list (action)) : ∀ st (m : string) (p : Plugin Regex),
  Forall (keeps m) acts → _cache st !! m = Some p →
  _cache (fold_left run_action acts st) !! m = Some p.
Proof.
  induction acts as [|a acts IH]; intros st m p Hall Hm; simpl; [done|].
  apply Forall_cons in Hall as [Ha Hall]. apply IH; [done|].
  destruct a as [o|files']; simpl in *; [by apply run_op_keeps | done].
Qed.


(** C10. With a plugin cached under [name], [load_plugin name] returns it
    and leaves the registry as it is, whatever the plugins directory
    holds; this stays so through any run of registry calls other than
    [save_plugin name] and [reload_plugin name] and any changes made to
    the directory from outside.  [save_plugin name] removes the entry, and
    [reload_plugin name] returns what the stored source gives now. *)
Theorem C10_cached_load_ignores_store (name : string) (p : Plugin Regex) st :
  _cache st !! name = Some p →
  (∀ files', load_plugin name (mkRegistry files' (_cache st))
             = (Some p, mkRegistry files' (_cache st)))
  ∧ (∀ acts, Forall (keeps name) acts →
       let st' := fold_left run_action acts st in
       load_plugin name st' = (Some p, st'))
  ∧ (∀ code, _cache (run_op (OpSave name code) st) !! name = None)
  ∧ (reload_plugin name st).1 = files st !! file_of name ≫= instantiate name.
Proof.
  intros Hp. repeat split.
  - intros files'. unfold PluginLoader.load_plugin. simpl. by rewrite Hp.
  - intros acts Hall st'. subst st'.
    pose proof (run_actions_keep acts st name p Hall Hp) as Hkept.
    unfold PluginLoader.load_plugin. by rewrite Hkept.
  - intros code. simpl. apply lookup_delete_eq.
  - unfold PluginLoader.reload_plugin. rewrite load_plugin_fst.
    unfold Claimed.resolve. simpl. by rewrite lookup_delete_eq.
Qed.

End RegistryFacts.


Lemma C10_cached_load_ignores_store_witness :
  PluginLoader.load_plugin string Samples.literal_compile Samples.sample_exec "a"
    (PluginLoader.mkRegistry ∅ (PluginLoader._cache Samples.warm))
  = (Some Samples.cached_a,
     PluginLoader.mkRegistry ∅ (PluginLoader._cache Samples.warm)).
Proof.
  pose proof (C10_cached_load_ignores_store string Samples.literal_compile
                Samples.contains Samples.sample_exec "plugins" "a"
                Samples.cached_a Samples.warm) as H.
  destruct H as (H & _); [reflexivity|]. apply H.
Defined.

(** ** The plugin registry over the bytecode files *)

Section DiskFacts.
Import PluginLoader.
Variable Regex : Type.
Variable re_compile : string → option Regex.
Variable Bytecode : Type.
Variable source_to_code : string → option Bytecode.
Variable exec_code : string → Bytecode → option PyModule.
Variable PLUGINS_DIR : string.

Local Abbreviation exec_module := (Disk.exec_module Bytecode source_to_code exec_code).
Local Abbreviation disk_load :=
  (Disk.load_plugin Regex re_compile Bytecode source_to_code exec_code).
Local Abbreviation disk_save := (Disk.save_plugin Regex Bytecode PLUGINS_DIR).
Local Abbreviation disk_reload :=
  (Disk.reload_plugin Regex re_compile Bytecode source_to_code exec_code).
Local Abbreviation plugin_of_module := (Disk.plugin_of_module Regex re_compile).

Implicit Types st : Disk.state Regex Bytecode.

Lemma instantiate_plugin_of_module (n code : string) :
  instantiate Regex re_compile exec_module n code
  = exec_module n code ≫= plugin_of_module n.
Proof. reflexivity. Qed.

(** What a load that misses [_cache] returns, by the code object
    importlib runs: the one of the bytecode file when its stamps are
    those of the source file, else the one the source compiles to. *)
Lemma disk_load_plugin_fst st (n : string) :
  (disk_load n st).1
  = match Disk._cache st !! n with
    | Some p => Some p
    | None =>
        src ← Disk.files st !! file_of n;
        bc ← match Disk.__pycache__ st !! file_of n with
              | Some c =>
                  if bool_decide
                       (Disk.source_mtime Bytecode c
                        = Disk.uint32 (Disk.st_mtime src)
                        ∧ Disk.source_size Bytecode c
                          = Disk.uint32
                              (Z.of_nat (String.length (Disk.text src))))
                  then Some (Disk.code Bytecode c)
                  else source_to_code (Disk.text src)
              | None => source_to_code (Disk.text src)
              end;
        exec_code n bc ≫= plugin_of_module n
    end.
Proof.
  unfold Disk.load_plugin. destruct (Disk._cache st !! n); [done|].
  destruct (Disk.files st !! file_of n) as [src|]; [|done]. simpl.
  unfold Disk.get_code.
  destruct (Disk.__pycache__ st !! file_of n) as [c|].
  - case_bool_decide.
    + simpl. by destruct (exec_code n (Disk.code Bytecode c) ≫= _).
    + destruct (source_to_code (Disk.text src)) as [bc|]; simpl; [|done].
      by destruct (exec_code n bc ≫= _).
  - destruct (source_to_code (Disk.text src)) as [bc|]; simpl; [|done].
    by destruct (exec_code n bc ≫= _).
Qed.

(** As long as no bytecode file stands in for another text of the
    source, a load returns what [PluginLoader.load_plugin] returns on
    the texts of the source files. *)
Lemma disk_load_plugin_up_to_date st (n : string) :
  Disk.up_to_date Regex Bytecode source_to_code n st →
  (disk_load n st).1
  = (load_plugin Regex re_compile exec_module n
       (Disk.registry_of Regex Bytecode st)).1.
Proof.
  intros Hup. rewrite disk_load_plugin_fst.
  unfold load_plugin, Disk.registry_of. simpl.
  destruct (Disk._cache st !! n); [done|]. rewrite lookup_fmap.
  destruct (Disk.files st !! file_of n) as [src|] eqn:Hsrc; simpl; [|done].
  rewrite instantiate_plugin_of_module. unfold Disk.exec_module.
  destruct (Disk.__pycache__ st !! file_of n) as [c|] eqn:Hc.
  - case_bool_decide as Hst.
    + destruct Hst as [Hm Hs]. rewrite (Hup src c Hsrc Hc Hm Hs). simpl.
      by destruct (exec_code n (Disk.code Bytecode c) ≫= _).
    + destruct (source_to_code (Disk.text src)) as [bc|]; simpl; [|done].
      by destruct (exec_code n bc ≫= _).
  - destruct (source_to_code (Disk.text src)) as [bc|]; simpl; [|done].
    by destruct (exec_code n bc ≫= _).
Qed.

(** The load that follows a save: the code object run is the one of the
    bytecode file left by an earlier load when that file records the
    second and the size of the save, whatever source it was compiled
    from; else it is the one the saved source compiles to. *)
Lemma disk_save_then_load st (now : Z) (n code : string) :
  let st1 := (disk_save now n code st).2 in
  Disk.files st1 !! file_of n = Some (Disk.mkSourceFile code now)
  ∧ Disk._cache st1 !! n = None
  ∧ (disk_load n st1).1
    = match Disk.__pycache__ st !! file_of n with
      | Some c =>
          if bool_decide
               (Disk.source_mtime Bytecode c = Disk.uint32 now
                ∧ Disk.source_size Bytecode c
                  = Disk.uint32 (Z.of_nat (String.length code)))
          then exec_code n (Disk.code Bytecode c) ≫= plugin_of_module n
          else exec_module n code ≫= plugin_of_module n
      | None => exec_module n code ≫= plugin_of_module n
      end.
Proof.
  simpl. rewrite lookup_insert_eq, lookup_delete_eq. split; [done|].
  split; [done|]. rewrite disk_load_plugin_fst. simpl.
  rewrite lookup_delete_eq, lookup_insert_eq. simpl.
  unfold Disk.exec_module.
  destruct (Disk.__pycache__ st !! file_of n) as [c|];
    [case_bool_decide; [done|]|]; by destruct (source_to_code code).
Qed.

(** A [reload_plugin] after a [save_plugin] builds the plugin from the
    source saved when no bytecode file of that source file records the
    second and the size of the save.  It caches what it returns, leaves
    the source file as saved, and leaves behind the bytecode of the saved
    source under those stamps. *)
Theorem save_reload_uses_saved_source st (now : Z) (n code : string) :
  (∀ c, Disk.__pycache__ st !! file_of n = Some c →
        ¬ (Disk.source_mtime Bytecode c = Disk.uint32 now
           ∧ Disk.source_size Bytecode c
             = Disk.uint32 (Z.of_nat (String.length code)))) →
  let r := disk_reload n (disk_save now n code st).2 in
  r.1 = exec_module n code ≫= plugin_of_module n
  ∧ Disk._cache r.2 !! n = r.1
  ∧ Disk.files r.2 = <[file_of n := Disk.mkSourceFile code now]> (Disk.files st)
  ∧ ∀ bc, source_to_code code = Some bc →
          Disk.__pycache__ r.2 !! file_of n
          = Some (Disk.mkPyc (Disk.uint32 now)
                    (Disk.uint32 (Z.of_nat (String.length code))) bc).
Proof.
  intros Hstale. cbv zeta.
  unfold Disk.reload_plugin, Disk.save_plugin, Disk.load_plugin,
    Disk.get_code, Disk.exec_module.
  cbn [snd Disk.files Disk.__pycache__ Disk._cache].
  rewrite !lookup_delete_eq, lookup_insert_eq. cbv zeta.
  cbn [Disk.text Disk.st_mtime Disk.__pycache__].
  destruct (Disk.__pycache__ st !! file_of n) as [c|] eqn:Hc;
    [rewrite bool_decide_eq_false_2 by (by apply Hstale)|];
    (destruct (source_to_code code) as [bc|]; cbn;
     [destruct (exec_code n bc ≫= plugin_of_module n) as [p|]; cbn;
      rewrite ?lookup_insert_eq, ?lookup_delete_eq;
      (split; [done|]); (split; [done|]); (split; [done|]);
      by intros ? [= <-]
     |rewrite ?lookup_delete_eq; by repeat split]).
Qed.

End DiskFacts.

Lemma save_reload_uses_saved_source_witness :
  PluginLoader.patterns
    <$> (Disk.reload_plugin string Samples.literal_compile string
           Samples.compile_text Samples.exec_versions "a"
           (Disk.save_plugin string string "plugins" 1700000001 "a"
              Samples.SRC_BRAVO Samples.loaded_alpha).2).1
  = Some ["bravo"].
Proof.
  pose proof (save_reload_uses_saved_source string Samples.literal_compile
                string Samples.compile_text Samples.exec_versions "plugins"
                Samples.loaded_alpha 1700000001 "a" Samples.SRC_BRAVO) as H.
  destruct H as (H & _).
  - intros c Hc [Hm _]. vm_compute in Hc. injection Hc as <-.
    vm_compute in Hm. discriminate Hm.
  - rewrite H. by vm_compute.
Defined.

(** C8 fails on the code.  Plugin [a] is saved and loaded, which leaves
    its bytecode file; within the same second a source of the same size
    is saved under [a].  The save stores the new source and evicts [a]
    from [_cache], and the load that follows goes to importlib again,
    but importlib runs the bytecode of the first source: the plugin
    returned has the pattern of the source overwritten, and
    [reload_plugin] returns the same.  Saved a second later, the same
    source gives the plugin with its own pattern. *)
Lemma C8_stale_bytecode_after_save :
  let load :=
    Disk.load_plugin string Samples.literal_compile string
      Samples.compile_text Samples.exec_versions in
  let reload :=
    Disk.reload_plugin string Samples.literal_compile string
      Samples.compile_text Samples.exec_versions in
  let save := Disk.save_plugin string string "plugins" in
  let st1 := (save 1700000000%Z "a" Samples.SRC_ALPHA Samples.empty_disk).2 in
  let st2 := (load "a" st1).2 in
  let st3 := (save 1700000000%Z "a" Samples.SRC_BRAVO st2).2 in
  let st3' := (save 1700000001%Z "a" Samples.SRC_BRAVO st2).2 in
  String.length Samples.SRC_ALPHA = String.length Samples.SRC_BRAVO
  ∧ PluginLoader.patterns <$> (load "a" st1).1 = Some ["alpha"]
  ∧ Disk._cache st2 !! "a" = (load "a" st1).1
  ∧ Disk.text <$> Disk.files st3 !! "a.py" = Some Samples.SRC_BRAVO
  ∧ Disk._cache st3 !! "a" = None
  ∧ PluginLoader.patterns <$> (load "a" st3).1 = Some ["alpha"]
  ∧ PluginLoader.patterns <$> (reload "a" st3).1 = Some ["alpha"]
  ∧ PluginLoader.patterns <$> (load "a" st3').1 = Some ["bravo"].
Proof. by vm_compute. Qed.

(** ** The watch list *)

Section WatchlistFacts.
Import Watchlist.

Lemma list_all_perm (d : table) : list_all d ≡ₚ entry_of <$> map_to_list d.
Proof. unfold list_all. by rewrite merge_sort_Permutation. Qed.

Lemma list_all_urls (d : table) : NoDup (url <$> list_all d).
Proof.
  rewrite list_all_perm, <- list_fmap_compose.
  apply (NoDup_fst_map_to_list d).
Qed.

Lemma list_all_elem (d : table) (u : string) (r : row) :
  d !! u = Some r → entry_of (u, r) ∈ list_all d.
Proof.
  intros H. rewrite list_all_perm. apply list_elem_of_fmap_2.
  by apply elem_of_map_to_list.
Qed.

Lemma list_all_url_elem (d : table) (u : string) :
  u ∈ url <$> list_all d → is_Some (d !! u).
Proof.
  rewrite list_all_perm. intros (e & -> & He)%list_elem_of_fmap.
  apply list_elem_of_fmap in He as ([u' r] & -> & Hr).
  apply elem_of_map_to_list in Hr. simpl. by exists r.
Qed.

Lemma seed_other (l : list WatchEntry) : ∀ (m : gmap string string) (u : string),
  u ∉ url <$> l →
  fold_left (λ m e, <[url e := last_state e]> m) l m !! u = m !! u.
Proof.
  induction l as [|a l IH]; intros m u Hu; simpl; [done|].
  rewrite fmap_cons, not_elem_of_cons in Hu. destruct Hu as [Hne Hu].
  rewrite IH by done. by rewrite lookup_insert_ne.
Qed.

Lemma seed_elem (l : list WatchEntry) : ∀ (m : gmap string string) (e : WatchEntry),
  NoDup (url <$> l) → e ∈ l →
  fold_left (λ m e, <[url e := last_state e]> m) l m !! url e
  = Some (last_state e).
Proof.
  induction l as [|a l IH]; intros m e Hnd He; simpl.
  - by apply elem_of_nil in He.
  - rewrite fmap_cons in Hnd. apply NoDup_cons in Hnd as [Ha Hnd].
    apply elem_of_cons in He as [->|He].
    + rewrite seed_other by done. apply lookup_insert_eq.
    + by apply IH.
Qed.

(** The map [cmd_run] seeds holds, for each watched URL, its persisted
    [last_state], and nothing else. *)
Lemma seed_prev_states_lookup (d : table) (u : string) :
  Monitor.seed_prev_states (list_all d) !! u = r_last_state <$> d !! u.
Proof.
  unfold Monitor.seed_prev_states. destruct (d !! u) as [r|] eqn:Hr; simpl.
  - apply (seed_elem _ ∅ (entry_of (u, r))); [apply list_all_urls|].
    by apply list_all_elem.
  - rewrite seed_other; [done|]. intros [r' Hr']%list_all_url_elem. congruence.
Qed.

End WatchlistFacts.

(** ** The polling loop *)

Section MonitorFacts.
Import PluginLoader Watchlist Monitor.
Variable Regex : Type.
Variable re_compile : string → option Regex.
Variable exec_module : string → string → option PyModule.
Variable POLL_INTERVAL : Z.
Variable fetch_page : string → option string * string.
Variable now : string → string.

Local Abbreviation load_plugin := (load_plugin Regex re_compile exec_module).
Local Abbreviation resolve := (Claimed.resolve Regex re_compile exec_module).
Local Abbreviation process_entry :=
  (process_entry Regex re_compile exec_module POLL_INTERVAL fetch_page now).
Local Abbreviation poll_cycle :=
  (poll_cycle Regex re_compile exec_module POLL_INTERVAL fetch_page now).

Implicit Types st : poll_state Regex.

(** A plugin that loaded is cached: loading it again changes nothing. *)
Lemma load_plugin_again (n : string) (r r' : registry Regex) (p : Plugin Regex) :
  load_plugin n r = (Some p, r') → load_plugin n r' = (Some p, r').
Proof.
  intros H. pose proof (load_plugin_cache Regex re_compile exec_module r n n) as Hc.
  pose proof (load_plugin_fst Regex re_compile exec_module r n) as Hf.
  rewrite H in Hc, Hf. simpl in Hc, Hf. rewrite decide_True in Hc by done.
  rewrite <- Hf in Hc.
  assert (_cache r' !! n = Some p) as Hn.
  { unfold Claimed.resolve in Hf.
    destruct (_cache r !! n); [congruence | done]. }
  unfold PluginLoader.load_plugin. by rewrite Hn.
Qed.

Lemma process_entry_fetch_failed st (e : WatchEntry) plugin reg' tier :
  load_plugin (plugin_name e) (reg st) = (Some plugin, reg') →
  fetch_page (url e) = (None, tier) →
  process_entry st e
  = let '(failures, db') := increment_failures (url e) (db st) in
    mkPoll db' (prev_states st) reg' (check_count st)
      (out st ++ [LogFetchFailed (check_count st) (url e) tier failures
                    (Claimed.backoff POLL_INTERVAL BACKOFF_FACTOR MAX_BACKOFF
                       failures)]).
Proof. intros Hl Hf. unfold Monitor.process_entry. by rewrite Hl, Hf. Qed.

Lemma process_entry_crashed st (e : WatchEntry) plugin reg' html tier exc :
  load_plugin (plugin_name e) (reg st) = (Some plugin, reg') →
  fetch_page (url e) = (Some html, tier) →
  parse_fn plugin html (url e) = inl exc →
  process_entry st e
  = mkPoll (update_state (now (url e)) (url e) "UNKNOWN" false (db st))
      (prev_states st) reg' (check_count st)
      (out st ++ [LogPluginCrashed (plugin_name e) (url e) exc]).
Proof. intros Hl Hf Hp. unfold Monitor.process_entry. by rewrite Hl, Hf, Hp. Qed.

Lemma process_entry_reg st (e : WatchEntry) :
  reg (process_entry st e) = (load_plugin (plugin_name e) (reg st)).2.
Proof.
  unfold Monitor.process_entry.
  destruct (load_plugin (plugin_name e) (reg st)) as [[plugin|] reg']; [|done].
  destruct (fetch_page (url e)) as [[html|] tier].
  - destruct (parse_fn plugin html (url e)) as [exc|result]; [done|].
    by case_decide.
  - by destruct (increment_failures (url e) (db st)).
Qed.

Lemma process_entry_resolve st (e : WatchEntry) (m : string) :
  resolve (reg (process_entry st e)) m = resolve (reg st) m.
Proof. rewrite process_entry_reg. apply load_plugin_resolve. Qed.

(** Processing an entry touches no row but its own. *)
Lemma process_entry_db_other st (e : WatchEntry) (u : string) :
  url e ≠ u → db (process_entry st e) !! u = db st !! u.
Proof.
  intros Hne. unfold Monitor.process_entry.
  destruct (load_plugin (plugin_name e) (reg st)) as [[plugin|] reg']; [|done].
  destruct (fetch_page (url e)) as [[html|] tier].
  - destruct (parse_fn plugin html (url e)) as [exc|result].
    + simpl. unfold update_state. by rewrite lookup_alter_ne.
    + case_decide; simpl; unfold update_state; by rewrite lookup_alter_ne.
  - unfold increment_failures. simpl. by rewrite lookup_alter_ne.
Qed.

Lemma fold_process_other (l : list WatchEntry) : ∀ st (u : string),
  u ∉ url <$> l →
  db (fold_left process_entry l st) !! u = db st !! u.
Proof.
  induction l as [|e l IH]; intros st u Hu; simpl; [done|].
  rewrite fmap_cons, not_elem_of_cons in Hu. destruct Hu as [Hne Hu].
  rewrite IH by done. by apply process_entry_db_other.
Qed.

Lemma fold_process_resolve (l : list WatchEntry) : ∀ st (m : string),
  resolve (reg (fold_left process_entry l st)) m = resolve (reg st) m.
Proof.
  induction l as [|e l IH]; intros st m; simpl; [done|].
  by rewrite IH, process_entry_resolve.
Qed.

(** In a pass over entries with distinct URLs, the row of [url e] ends as
    processing [e] leaves it, and [e] is processed in a state that has
    that row, and what every plugin name resolves to, as at the start. *)
Lemma fold_process_at (l : list WatchEntry) (e : WatchEntry) st :
  NoDup (url <$> l) → e ∈ l →
  ∃ st1, db st1 !! url e = db st !! url e
         ∧ (∀ m, resolve (reg st1) m = resolve (reg st) m)
         ∧ db (fold_left process_entry l st) !! url e
           = db (process_entry st1 e) !! url e.
Proof.
  intros Hnd (l1 & l2 & ->)%list_elem_of_split.
  rewrite fmap_app, fmap_cons in Hnd.
  apply NoDup_app in Hnd as (_ & Hl1 & Hnd).
  apply NoDup_cons in Hnd as [Hl2 _].
  exists (fold_left process_entry l1 st). split; [|split].
  - apply fold_process_other. intros H. apply (Hl1 _ H). left.
  - intros m. apply fold_process_resolve.
  - rewrite fold_left_app. simpl. by apply fold_process_other.
Qed.

Lemma poll_cycle_at st (u : string) (r : row) :
  db st !! u = Some r →
  ∃ st1, db st1 !! u = Some r
         ∧ (∀ m, resolve (reg st1) m = resolve (reg st) m)
         ∧ db (poll_cycle st) !! u
           = db (process_entry st1 (entry_of (u, r))) !! u.
Proof.
  intros Hr. pose proof (list_all_elem _ _ _ Hr) as He.
  unfold Monitor.poll_cycle.
  destruct (fold_process_at (list_all (db st)) (entry_of (u, r))
              (mkPoll (db st) (prev_states st) (reg st) (check_count st + 1)
                 (out st))
              (list_all_urls _) He) as (st1 & H1 & H2 & H3).
  simpl in H1, H2, H3. exists st1. rewrite H1. split; [done|]. split; [done|].
  destruct (list_all (db st)) as [|e0 l0] eqn:Hall; [by apply elem_of_nil in He|].
  exact H3.
Qed.

(** What a failed fetch does to the state an entry is processed in. *)
Lemma fetch_failed_step st (e : WatchEntry) plugin reg' tier (r : row) :
  load_plugin (plugin_name e) (reg st) = (Some plugin, reg') →
  fetch_page (url e) = (None, tier) →
  db st !! url e = Some r →
  let failures := (r_consecutive_failures r + 1)%Z in
  let st' := process_entry st e in
  load_plugin (plugin_name e) (reg st') = (Some plugin, reg st')
  ∧ db st' !! url e
    = Some (mkRow (r_plugin_name r) (r_event_name r) (r_added_at r)
              (r_last_state r) (r_last_check r) failures)
  ∧ check_count st' = check_count st
  ∧ out st'
    = out st ++ [LogFetchFailed (check_count st) (url e) tier failures
                   (Claimed.backoff POLL_INTERVAL BACKOFF_FACTOR MAX_BACKOFF
                      failures)].
Proof.
  intros Hl Hf Hr. simpl. rewrite (process_entry_fetch_failed _ _ _ _ _ Hl Hf).
  unfold increment_failures. rewrite lookup_alter_eq, Hr. simpl.
  rewrite lookup_alter_eq, Hr. simpl.
  split; [by eapply load_plugin_again | done].
Qed.


(** C2. For an entry whose fetch returns nothing, the failure counter of
    its row goes up by one, and the backoff logged is
    min(POLL_INTERVAL * BACKOFF_FACTOR ^ failures, MAX_BACKOFF) with
    [failures] the counter after the increment.  With a base interval of
    60 and a counter at 0, four failures in a row log the backoffs 120,
    240, 480 and the cap 600. *)
Theorem C2_fetch_failure_backoff st (e : WatchEntry) plugin reg' tier (r : row) :
  load_plugin (plugin_name e) (reg st) = (Some plugin, reg') →
  fetch_page (url e) = (None, tier) →
  db st !! url e = Some r →
  let failures := (r_consecutive_failures r + 1)%Z in
  let st' := process_entry st e in
  r_consecutive_failures <$> db st' !! url e = Some failures
  ∧ out st'
    = out st ++ [LogFetchFailed (check_count st) (url e) tier failures
                   (Z.min (POLL_INTERVAL * BACKOFF_FACTOR ^ failures) MAX_BACKOFF)]
  ∧ (POLL_INTERVAL = 60%Z → r_consecutive_failures r = 0%Z →
     logged_backoffs (out (fold_left process_entry [e; e; e; e] st))
     = logged_backoffs (out st) ++ [120; 240; 480; 600]%Z).
Proof.
  intros Hl Hf Hr. simpl.
  destruct (fetch_failed_step st e plugin reg' tier r Hl Hf Hr)
    as (Hl1 & Hr1 & Hc1 & Ho1).
  split; [by rewrite Hr1|]. split; [exact Ho1|].
  intros Hbase Hzero.
  destruct (fetch_failed_step _ e plugin _ tier _ Hl1 Hf Hr1)
    as (Hl2 & Hr2 & Hc2 & Ho2).
  destruct (fetch_failed_step _ e plugin _ tier _ Hl2 Hf Hr2)
    as (Hl3 & Hr3 & Hc3 & Ho3).
  destruct (fetch_failed_step _ e plugin _ tier _ Hl3 Hf Hr3)
    as (Hl4 & Hr4 & Hc4 & Ho4).
  rewrite Ho4, Ho3, Ho2, Ho1. simpl. rewrite Hbase, Hzero.
  unfold logged_backoffs. rewrite !omap_app, <- !app_assoc. reflexivity.
Qed.

(** C3. In a poll cycle, for the row of a watched URL whose plugin
    resolves: when the fetch returns nothing the row's [last_state] is
    after the cycle what it was before; when the fetch succeeds and
    [parse] raises, the row's [last_state] is UNKNOWN after the cycle and
    its [consecutive_failures] is what it was before the cycle. *)
Theorem C3_failure_frames st (u : string) (r : row) (plugin : Plugin Regex) :
  db st !! u = Some r →
  resolve (reg st) (r_plugin_name r) = Some plugin →
  let st' := poll_cycle st in
  ((fetch_page u).1 = None →
   r_last_state <$> db st' !! u = Some (r_last_state r))
  ∧ (∀ html exc,
       (fetch_page u).1 = Some html → parse_fn plugin html u = inl exc →
       r_last_state <$> db st' !! u = Some "UNKNOWN"
       ∧ r_consecutive_failures <$> db st' !! u
         = Some (r_consecutive_failures r)).
Proof.
  intros Hr Hres. simpl.
  destruct (poll_cycle_at st u r Hr) as (st1 & Hr1 & Hres1 & ->).
  pose proof (load_plugin_fst Regex re_compile exec_module (reg st1)
                (r_plugin_name r)) as Hl.
  rewrite Hres1, Hres in Hl.
  destruct (load_plugin (r_plugin_name r) (reg st1)) as [o reg1] eqn:Hload.
  simpl in Hl. subst o.
  destruct (fetch_page u) as [o tier] eqn:Hfetch. simpl. split.
  - intros ->.
    destruct (fetch_failed_step st1 (entry_of (u, r)) plugin reg1 tier r
                Hload Hfetch Hr1) as (_ & H & _).
    simpl in H. by rewrite H.
  - intros html exc -> Hexc.
    rewrite (process_entry_crashed st1 (entry_of (u, r)) plugin reg1 html tier
               exc Hload Hfetch Hexc).
    simpl. unfold update_state. by rewrite lookup_alter_eq, Hr1.
Qed.

End MonitorFacts.


Lemma C2_fetch_failure_backoff_witness :
  Monitor.logged_backoffs
    (Monitor.out
       (fold_left
          (Monitor.process_entry string Samples.literal_compile
             Samples.sample_exec 60 Samples.fetch_none Samples.clock)
          [Samples.entry0; Samples.entry0; Samples.entry0; Samples.entry0]
          Samples.polling))
  = [120; 240; 480; 600]%Z.
Proof.
  destruct (C2_fetch_failure_backoff string Samples.literal_compile
              Samples.sample_exec 60 Samples.fetch_none Samples.clock
              Samples.polling Samples.entry0 Samples.cached_a Samples.warm
              "none" (Samples.row0 "a" "2024-01-01")
              eq_refl eq_refl eq_refl) as (_ & _ & H).
  apply H; reflexivity.
Defined.

Lemma C3_failure_frames_witness :
  Watchlist.r_last_state
    <$> Monitor.db
          (Monitor.poll_cycle string Samples.literal_compile Samples.sample_exec
             60 Samples.fetch_ok Samples.clock Samples.polling_crash)
        !! Samples.URL
  = Some "UNKNOWN"
  ∧ Watchlist.r_consecutive_failures
      <$> Monitor.db
            (Monitor.poll_cycle string Samples.literal_compile
               Samples.sample_exec 60 Samples.fetch_ok Samples.clock
               Samples.polling_crash)
          !! Samples.URL
    = Some 0%Z.
Proof.
  destruct (C3_failure_frames string Samples.literal_compile Samples.sample_exec
              60 Samples.fetch_ok Samples.clock Samples.polling_crash
              Samples.URL (Samples.row0 "a" "2024-01-01") Samples.crashing_a
              eq_refl eq_refl) as (_ & H).
  apply (H "<html></html>" "boom"); reflexivity.
Defined.

(** The backoff scenario over whole cycles: four polls of one watched URL
    whose fetch keeps failing log 120, 240, 480 and 600. *)
Example backoff_over_four_cycles :
  let cycle :=
    Monitor.poll_cycle string Samples.literal_compile Samples.sample_exec 60
      Samples.fetch_none Samples.clock in
  Monitor.logged_backoffs
    (Monitor.out
       (cycle (cycle (cycle (cycle
          (Monitor.start string Samples.one_row Samples.warm))))))
  = [120; 240; 480; 600]%Z.
Proof. by vm_compute. Qed.

(** The dotted entries of [ALLOWED_IMPORTS] never equal a top-level
    segment: [import urllib.parse] is flagged like any other. *)
Example urllib_parse_import_flagged :
  Analyzer.validate_tree
    (Ast.Module_ [Ast.Import [Ast.mkAlias "urllib.parse" None]])
  = ["Forbidden import: urllib.parse"; Analyzer.MISSING_PATTERNS;
     Analyzer.MISSING_PARSE].
Proof. by vm_compute. Qed.

(** * Further properties of the code *)

(** ** watchlist.py: add, remove, get, list_all *)

Section WatchlistMore.
Import Watchlist.

Lemma get_entry_of (db : table) (u : string) (r : row) :
  db !! u = Some r → get u db = Some (entry_of (u, r)).
Proof. intros H. unfold get. by rewrite H. Qed.

Lemma add_fresh_lookup (now u p ev : string) (db : table) :
  get u db = None →
  get u (add now u p ev db) = Some (mkWatchEntry u p ev now "UNKNOWN" "" 0)
  ∧ ∀ u', u' ≠ u → get u' (add now u p ev db) = get u' db.
Proof.
  unfold get, add. intros H. destruct (db !! u) as [r|] eqn:Hr; [done|].
  rewrite lookup_insert_eq. split; [done|].
  intros u' Hne. by rewrite lookup_insert_ne.
Qed.

(** Adding a URL that is not watched yet gives a row with the plugin and
    event given, the time of the call as [added_at], state UNKNOWN, no
    check yet and no failures; the rows of other URLs stay as they are. *)
Theorem watchlist_add_fresh (now u p ev : string) (db : table) :
  get u db = None →
  get u (add now u p ev db) = Some (mkWatchEntry u p ev now "UNKNOWN" "" 0)
  ∧ ∀ u', u' ≠ u → get u' (add now u p ev db) = get u' db.
Proof. apply add_fresh_lookup. Qed.

(** Adding a URL that is watched already replaces its plugin and event
    name only: [added_at], [last_state], [last_check] and the failure
    counter are kept, and so are the rows of other URLs. *)
Theorem watchlist_add_existing (now u p ev : string) (db : table)
    (old : WatchEntry) :
  get u db = Some old →
  get u (add now u p ev db)
  = Some (mkWatchEntry u p ev (added_at old) (last_state old)
            (last_check old) (consecutive_failures old))
  ∧ ∀ u', u' ≠ u → get u' (add now u p ev db) = get u' db.
Proof.
  unfold get, add. intros H. destruct (db !! u) as [r|] eqn:Hr; [|done].
  simpl in H. injection H as <-. rewrite lookup_insert_eq. split; [done|].
  intros u' Hne. by rewrite lookup_insert_ne.
Qed.

(** [remove] answers True exactly when the URL was watched; afterwards
    the URL is not watched, and every other row is as before. *)
Theorem watchlist_remove_spec (u : string) (db : table) :
  ((remove u db).1 = true ↔ is_Some (get u db))
  ∧ get u (remove u db).2 = None
  ∧ ∀ u', u' ≠ u → get u' (remove u db).2 = get u' db.
Proof.
  unfold remove, get. simpl. split; [|split].
  - rewrite bool_decide_eq_true, fmap_is_Some. done.
  - by rewrite lookup_delete_eq.
  - intros u' Hne. by rewrite lookup_delete_ne.
Qed.

(** On a URL that is not watched, [update_state] and
    [increment_failures] leave the table as it is, and the count
    [increment_failures] returns is 0. *)
Theorem watchlist_unwatched_url_untouched (now u s : string) (reset : bool)
    (db : table) :
  get u db = None →
  update_state now u s reset db = db
  ∧ increment_failures u db = (0%Z, db).
Proof.
  unfold get. intros H. destruct (db !! u) as [r|] eqn:Hr; [done|].
  unfold update_state, increment_failures.
  assert (∀ f : row → row, alter f u db = db) as Halter.
  { intros f. apply map_eq. intros k. rewrite lookup_alter.
    case_decide; [subst; by rewrite Hr | done]. }
  rewrite !Halter, Hr. by destruct reset.
Qed.

Lemma increment_failures_row (u : string) (db : table) (r : row) :
  db !! u = Some r →
  increment_failures u db
  = ((r_consecutive_failures r + 1)%Z,
     <[u := mkRow (r_plugin_name r) (r_event_name r) (r_added_at r)
              (r_last_state r) (r_last_check r)
              (r_consecutive_failures r + 1)]> db).
Proof.
  intros Hr. unfold increment_failures. rewrite lookup_alter_eq, Hr. simpl.
  f_equal. apply map_eq. intros k. rewrite lookup_alter, lookup_insert.
  case_decide; [subst; by rewrite Hr | done].
Qed.

(** After [n] failed fetches in a row the counter of a watched URL is [n]
    higher, and the next [increment_failures] returns that plus one; an
    [update_state] that resets puts it back to 0, one that does not
    leaves it; both stamp the state and the time and keep the rest. *)
Theorem watchlist_failure_counter (n : nat) (now u s : string) (db : table)
    (old : WatchEntry) :
  get u db = Some old →
  let db' := Nat.iter n (λ d, (increment_failures u d).2) db in
  let count := (consecutive_failures old + Z.of_nat n)%Z in
  get u db'
  = Some (mkWatchEntry u (plugin_name old) (entry_event_name old)
            (added_at old) (last_state old) (last_check old) count)
  ∧ (increment_failures u db').1 = (count + 1)%Z
  ∧ get u (update_state now u s true db')
    = Some (mkWatchEntry u (plugin_name old) (entry_event_name old)
              (added_at old) s now 0)
  ∧ get u (update_state now u s false db')
    = Some (mkWatchEntry u (plugin_name old) (entry_event_name old)
              (added_at old) s now count).
Proof.
  intros Hold. cbv zeta. unfold get in Hold.
  destruct (db !! u) as [r0|] eqn:Hr0; [|done]. injection Hold as <-.
  assert (Nat.iter n (λ d, (increment_failures u d).2) db !! u
          = Some (mkRow (r_plugin_name r0) (r_event_name r0) (r_added_at r0)
                    (r_last_state r0) (r_last_check r0)
                    (r_consecutive_failures r0 + Z.of_nat n))) as Hn.
  { induction n as [|n IH].
    - simpl. rewrite Z.add_0_r, Hr0. by destruct r0.
    - rewrite Nat.iter_succ, (increment_failures_row _ _ _ IH). simpl.
      rewrite lookup_insert_eq. do 2 f_equal. lia. }
  unfold get, update_state. rewrite (increment_failures_row _ _ _ Hn).
  rewrite !lookup_alter_eq, Hn. done.
Qed.

Lemma by_added_at_entry (a b : string * row) :
  by_added_at a b → String.le (added_at (entry_of a)) (added_at (entry_of b)).
Proof. done. Qed.

(** [list_all] gives every watched URL exactly once, with the row [get]
    gives for it, oldest [added_at] first. *)
Theorem watchlist_list_all_spec (db : table) :
  StronglySorted (λ a b, String.le (added_at a) (added_at b)) (list_all db)
  ∧ NoDup (url <$> list_all db)
  ∧ length (list_all db) = size db
  ∧ ∀ e, e ∈ list_all db ↔ get (url e) db = Some e.
Proof.
  split; [|split; [apply list_all_urls|split]].
  - unfold list_all.
    apply (StronglySorted_fmap entry_of by_added_at); [by intros a b|].
    apply StronglySorted_merge_sort.
    + intros a b c. unfold by_added_at. apply transitivity.
    + intros a b. unfold by_added_at. apply total. apply _.
  - rewrite list_all_perm, length_fmap. apply length_map_to_list.
  - intros e. rewrite list_all_perm, list_elem_of_fmap. unfold get. split.
    + intros ([u r] & -> & Hr%elem_of_map_to_list). simpl. by rewrite Hr.
    + destruct (db !! url e) as [r|] eqn:Hr; [|done]. simpl.
      intros [= <-]. exists (url e, r). split; [done|].
      by apply elem_of_map_to_list.
Qed.

End WatchlistMore.

Lemma watchlist_add_fresh_witness :
  Watchlist.get "https://b.example/x"
    (Watchlist.add "2024-02-01" "https://b.example/x" "b" "" Samples.one_row)
  = Some (mkWatchEntry "https://b.example/x" "b" "" "2024-02-01" "UNKNOWN" "" 0).
Proof.
  apply (watchlist_add_fresh "2024-02-01" "https://b.example/x" "b" ""
           Samples.one_row).
  reflexivity.
Defined.

Lemma watchlist_add_existing_witness :
  Watchlist.get Samples.URL
    (Watchlist.add "2024-02-01" Samples.URL "b" "Final" Samples.one_row)
  = Some (mkWatchEntry Samples.URL "b" "Final" "2024-01-01" "UNKNOWN" "" 0).
Proof.
  apply (watchlist_add_existing "2024-02-01" Samples.URL "b" "Final"
           Samples.one_row Samples.entry0).
  reflexivity.
Defined.

Lemma watchlist_unwatched_url_untouched_witness :
  Watchlist.increment_failures "https://b.example/x" Samples.one_row
  = (0%Z, Samples.one_row).
Proof.
  apply (watchlist_unwatched_url_untouched "" "https://b.example/x" "" true
           Samples.one_row).
  reflexivity.
Defined.

Lemma watchlist_failure_counter_witness :
  (Watchlist.increment_failures Samples.URL
     (Nat.iter 3 (λ d, (Watchlist.increment_failures Samples.URL d).2)
        Samples.one_row)).1
  = 4%Z.
Proof.
  apply (watchlist_failure_counter 3 "" Samples.URL "" Samples.one_row
           Samples.entry0).
  reflexivity.
Defined.

(** ** plugin_loader.py: the names of the plugins loaded *)

Section RegistryMore.
Import PluginLoader.
Variable Regex : Type.
Variable re_compile : string → option Regex.
Variable re_search : Regex → string → bool.
Variable exec_module : string → string → option PyModule.
Variable PLUGINS_DIR : string.

Local Abbreviation load_plugin := (load_plugin Regex re_compile exec_module).
Local Abbreviation instantiate := (instantiate Regex re_compile exec_module).
Local Abbreviation resolve := (Claimed.resolve Regex re_compile exec_module).
Local Abbreviation load_all_plugins :=
  (load_all_plugins Regex re_compile exec_module).
Local Abbreviation find_plugin_for_url :=
  (find_plugin_for_url Regex re_compile re_search exec_module).
Local Abbreviation save_plugin := (save_plugin Regex PLUGINS_DIR).
Local Abbreviation reload_plugin := (reload_plugin Regex re_compile exec_module).
Local Abbreviation run_op :=
  (run_op Regex re_compile re_search exec_module PLUGINS_DIR).
Local Abbreviation run_action :=
  (run_action Regex re_compile re_search exec_module PLUGINS_DIR).

Implicit Types st : registry Regex.

Lemma load_plugin_failed_same (n : string) st :
  (load_plugin n st).1 = None → (load_plugin n st).2 = st.
Proof.
  unfold PluginLoader.load_plugin.
  destruct (_cache st !! n) as [p|]; [done|].
  destruct (files st !! file_of n) as [code|]; [|done].
  by destruct (instantiate n code).
Qed.

Lemma load_all_plugins_files st : files (load_all_plugins st).2 = files st.
Proof.
  unfold PluginLoader.load_all_plugins.
  by destruct (load_all_fold Regex re_compile exec_module
                 (sorted_listdir Regex st) st [] st) as (_ & _ & ->).
Qed.

Lemma instantiate_name (n code : string) (p : Plugin Regex) :
  instantiate n code = Some p → name p = n.
Proof.
  unfold PluginLoader.instantiate. intros H.
  destruct (exec_module n code) as [m|]; simpl in H; [|done].
  destruct (PLATFORM_PATTERNS m); simpl in H; [|done].
  destruct (parse m); simpl in H; [|done].
  destruct (mapM re_compile l); simpl in H; [|done].
  by injection H as <-.
Qed.

Lemma resolve_name st (n : string) (p : Plugin Regex) :
  (∀ m q, _cache st !! m = Some q → name q = m) →
  resolve st n = Some p → name p = n.
Proof.
  intros Hinv. unfold Claimed.resolve.
  destruct (_cache st !! n) as [q|] eqn:Hn.
  - intros [= <-]. by apply Hinv.
  - destruct (files st !! file_of n) as [code|]; simpl; [|done].
    apply instantiate_name.
Qed.

Lemma load_plugin_named st (n : string) :
  (∀ m q, _cache st !! m = Some q → name q = m) →
  ∀ m q, _cache (load_plugin n st).2 !! m = Some q → name q = m.
Proof.
  intros Hinv m q. rewrite load_plugin_cache.
  destruct (_cache st !! m) as [q'|] eqn:Hm.
  - intros [= <-]. by apply Hinv.
  - case_decide; [subst|done]. by apply resolve_name.
Qed.

Lemma load_all_fold_named (l : list string) : ∀ acc st,
  (∀ m q, _cache st !! m = Some q → name q = m) →
  ∀ m q, _cache (fold_left (load_all_step Regex re_compile exec_module) l
                   (acc, st)).2 !! m = Some q → name q = m.
Proof.
  induction l as [|f l IH]; intros acc st Hinv; simpl; [done|].
  pose proof (load_all_step_snd Regex re_compile exec_module acc st f) as Hsnd.
  destruct (load_all_step Regex re_compile exec_module (acc, st) f)
    as [acc' st'].
  simpl in Hsnd. apply IH. destruct Hsnd as [->| ->]; [done|].
  by apply load_plugin_named.
Qed.

Lemma run_action_named st (a : action) :
  (∀ m q, _cache st !! m = Some q → name q = m) →
  ∀ m q, _cache (run_action st a) !! m = Some q → name q = m.
Proof.
  intros Hinv. destruct a as [[n| |url|n code|n]|files']; simpl.
  - by apply load_plugin_named.
  - by apply load_all_fold_named.
  - rewrite find_plugin_for_url_snd. by apply load_all_fold_named.
  - intros m q. rewrite lookup_delete. case_decide; [done|]. apply Hinv.
  - unfold PluginLoader.reload_plugin. apply load_plugin_named. simpl.
    intros m q. rewrite lookup_delete. case_decide; [done|]. apply Hinv.
  - done.
Qed.

Lemma run_actions_named (acts : list action) : ∀ st,
  (∀ m q, _cache st !! m = Some q → name q = m) →
  ∀ m q, _cache (fold_left run_action acts st) !! m = Some q → name q = m.
Proof.
  induction acts as [|a acts IH]; intros st Hinv; simpl; [done|].
  apply IH. by apply run_action_named.
Qed.

(** Starting from an empty cache, whatever calls are made and however the
    directory is changed from outside, a plugin the registry hands out
    for a name carries that name. *)
Theorem loaded_plugin_carries_its_name (fs : gmap string string)
    (acts : list action) (n : string) (p : Plugin Regex) :
  let st := fold_left run_action acts (mkRegistry fs ∅) in
  (load_plugin n st).1 = Some p → name p = n.
Proof.
  simpl. rewrite load_plugin_fst. apply resolve_name.
  apply run_actions_named. simpl. intros m q. by rewrite lookup_empty.
Qed.

End RegistryMore.

(** ** Strings: suffixes and the file name of a plugin *)

Section StringFacts.
#[local] Arguments String.append : simpl nomatch.

Lemma string_app_nil_r (s : string) : s +:+ "" = s.
Proof. induction s as [|c s IH]; simpl; [done | by rewrite IH]. Qed.

Lemma string_app_assoc (a b c : string) : (a +:+ b) +:+ c = a +:+ (b +:+ c).
Proof. induction a as [|x a IH]; simpl; [done | by rewrite IH]. Qed.

Lemma string_rev_app_spec (a : string) : ∀ b,
  String.rev_app a b = String.rev a +:+ b.
Proof.
  unfold String.rev. induction a as [|c a IH]; intros b; simpl; [done|].
  by rewrite (IH (String c "")), IH, string_app_assoc.
Qed.

Lemma string_rev_cons (c : ascii) (s : string) :
  String.rev (String c s) = String.rev s +:+ String c "".
Proof. unfold String.rev at 1. simpl. apply string_rev_app_spec. Qed.

Lemma string_rev_app (a b : string) :
  String.rev (a +:+ b) = String.rev b +:+ String.rev a.
Proof.
  induction a as [|c a IH]; simpl.
  - by rewrite string_app_nil_r.
  - by rewrite !string_rev_cons, IH, string_app_assoc.
Qed.

Lemma string_rev_involutive (s : string) : String.rev (String.rev s) = s.
Proof.
  induction s as [|c s IH]; [done|].
  by rewrite string_rev_cons, string_rev_app, IH.
Qed.

Lemma string_prefix_app (p s : string) : String.prefix p (p +:+ s) = true.
Proof.
  induction p as [|c p IH]; simpl; [by destruct s|].
  by destruct (ascii_dec c c).
Qed.

Lemma string_prefix_inv (p : string) : ∀ s,
  String.prefix p s = true → ∃ t, s = p +:+ t.
Proof.
  induction p as [|c p IH]; intros s H.
  - by exists s.
  - destruct s as [|d s]; [done|]. simpl in H.
    destruct (ascii_dec c d) as [->|]; [|done].
    destruct (IH s H) as [t ->]. by exists t.
Qed.

Lemma string_length_app (a b : string) :
  String.length (a +:+ b) = String.length a + String.length b.
Proof. induction a as [|c a IH]; simpl; [done | by rewrite IH]. Qed.

Lemma string_substring_app (a b : string) :
  String.substring 0 (String.length a) (a +:+ b) = a.
Proof.
  induction a as [|c a IH]; simpl.
  - by destruct b.
  - by rewrite IH.
Qed.

Lemma endswith_app (n p : string) : Py.endswith (n +:+ p) p = true.
Proof. unfold Py.endswith. rewrite string_rev_app. apply string_prefix_app. Qed.

Lemma drop_last_app (n p : string) : Py.drop_last (String.length p) (n +:+ p) = n.
Proof.
  unfold Py.drop_last. rewrite string_length_app.
  replace (String.length n + String.length p - String.length p)
    with (String.length n) by lia.
  apply string_substring_app.
Qed.

Lemma endswith_inv (f p : string) :
  Py.endswith f p = true → f = Py.drop_last (String.length p) f +:+ p.
Proof.
  unfold Py.endswith. intros [t Ht]%string_prefix_inv.
  assert (f = String.rev t +:+ p) as ->.
  { rewrite <- (string_rev_involutive f), Ht, string_rev_app.
    by rewrite string_rev_involutive. }
  by rewrite drop_last_app.
Qed.

Lemma string_prefix_nil (s : string) : String.prefix "" s = true.
Proof. by destruct s. Qed.

Lemma startswith_file_of (n : string) :
  Py.startswith (PluginLoader.file_of n) "_" = Py.startswith n "_".
Proof.
  destruct n as [|c r]; [done|].
  unfold Py.startswith, PluginLoader.file_of.
  cbn [String.prefix String.append].
  destruct (ascii_dec "_" c); [|done]. by rewrite !string_prefix_nil.
Qed.

Lemma file_of_inj (n n' : string) :
  PluginLoader.file_of n = PluginLoader.file_of n' → n = n'.
Proof.
  unfold PluginLoader.file_of. intros H.
  by rewrite <- (drop_last_app n ".py"), H, drop_last_app.
Qed.

(** A file name [load_all_plugins] does not pass over is the file of the
    plugin name it takes from it. *)
Lemma listed_file_of (f : string) :
  Claimed.listed f → f = PluginLoader.file_of (Py.drop_last 3 f).
Proof.
  unfold Claimed.listed. intros [_ H]%orb_false_elim.
  apply negb_false_iff in H. by apply (endswith_inv f ".py").
Qed.

Lemma listed_iff (n : string) :
  Claimed.listed (PluginLoader.file_of n) ↔ Py.startswith n "_" = false.
Proof.
  unfold Claimed.listed. rewrite startswith_file_of.
  unfold PluginLoader.file_of. rewrite endswith_app. simpl.
  by rewrite orb_false_r.
Qed.

End StringFacts.

(** ** plugin_loader.py: enumerating and matching *)

Section RegistryLifecycle.
Import PluginLoader.
Variable Regex : Type.
Variable re_compile : string → option Regex.
Variable re_search : Regex → string → bool.
Variable exec_module : string → string → option PyModule.
Variable PLUGINS_DIR : string.

Local Abbreviation load_plugin := (load_plugin Regex re_compile exec_module).
Local Abbreviation instantiate := (instantiate Regex re_compile exec_module).
Local Abbreviation resolve := (Claimed.resolve Regex re_compile exec_module).
Local Abbreviation load_all_plugins :=
  (load_all_plugins Regex re_compile exec_module).
Local Abbreviation find_plugin_for_url :=
  (find_plugin_for_url Regex re_compile re_search exec_module).
Local Abbreviation save_plugin := (save_plugin Regex PLUGINS_DIR).
Local Abbreviation reload_plugin := (reload_plugin Regex re_compile exec_module).

Implicit Types st : registry Regex.

(** What [find_plugin_for_url] returns matches the URL and is the first
    of the plugins [load_all_plugins] loads that does: it has a compiled
    pattern found in the URL, and the plugins loaded before it do not
    match.  When it returns None, none of the loaded plugins matches. *)
Theorem find_plugin_for_url_sound (url : string) st :
  match (find_plugin_for_url url st).1 with
  | Some p =>
      (∃ r, r ∈ _compiled p ∧ re_search r url = true)
      ∧ ∃ before after,
          (load_all_plugins st).1 = before ++ p :: after
          ∧ ∀ q, q ∈ before → matches_url Regex re_search q url = false
  | None =>
      ∀ p, p ∈ (load_all_plugins st).1 →
           matches_url Regex re_search p url = false
  end.
Proof.
  rewrite find_plugin_for_url_fst.
  induction (load_all_plugins st).1 as [|q l IH]; simpl.
  - by intros p ?%elem_of_nil.
  - destruct (matches_url Regex re_search q url) eqn:Hq.
    + split.
      * unfold matches_url in Hq. apply existsb_exists in Hq as (r & Hr & Hs).
        exists r. split; [by apply list_elem_of_In | done].
      * exists [], l. split; [done|]. by intros ? ?%elem_of_nil.
    + destruct (find _ l) as [p|].
      * destruct IH as (Hm & before & after & -> & Hb). split; [done|].
        exists (q :: before), after. split; [done|].
        intros q' [->|Hq']%elem_of_cons; [done | by apply Hb].
      * intros p [->|Hp]%elem_of_cons; [done | by apply IH].
Qed.

Lemma names_by_file_elem st (n : string) :
  n ∈ Claimed.names_by_file Regex st
  ↔ Py.startswith n "_" = false ∧ is_Some (files st !! file_of n).
Proof.
  unfold Claimed.names_by_file, sorted_listdir.
  rewrite list_elem_of_fmap. split.
  - intros (f & -> & [Hl Hf]%list_elem_of_filter).
    rewrite merge_sort_Permutation, elem_of_elements, elem_of_dom in Hf.
    pose proof (listed_file_of f Hl) as Hfile. rewrite <- Hfile.
    split; [|done]. apply listed_iff. by rewrite <- Hfile.
  - intros [Hn Hf]. exists (file_of n). split.
    + symmetry. apply (drop_last_app n ".py").
    + apply list_elem_of_filter. split; [by apply listed_iff|].
      by rewrite merge_sort_Permutation, elem_of_elements, elem_of_dom.
Qed.

Lemma names_by_file_NoDup st : NoDup (Claimed.names_by_file Regex st).
Proof.
  unfold Claimed.names_by_file. apply NoDup_fmap_2_strong.
  - intros f g [Hf _]%list_elem_of_filter [Hg _]%list_elem_of_filter Heq.
    by rewrite (listed_file_of f Hf), (listed_file_of g Hg), Heq.
  - apply NoDup_filter. unfold sorted_listdir.
    rewrite merge_sort_Permutation. apply NoDup_elements.
Qed.

(** With every cached plugin carrying the name it is cached under (as
    after any calls from an empty cache), [load_all_plugins] returns no
    two plugins of the same name. *)
Theorem load_all_names_distinct st :
  (∀ m q, _cache st !! m = Some q → name q = m) →
  NoDup (name <$> (load_all_plugins st).1).
Proof.
  intros Hinv. rewrite load_all_plugins_fst.
  pose proof (names_by_file_NoDup st) as Hnd.
  induction (Claimed.names_by_file Regex st) as [|n l IH]; simpl;
    [constructor|].
  apply NoDup_cons in Hnd as [Hn Hnd].
  destruct (resolve st n) as [p|] eqn:Hp; [|by apply IH].
  rewrite fmap_cons. apply NoDup_cons. split; [|by apply IH].
  rewrite (resolve_name Regex re_compile exec_module st n p Hinv Hp).
  intros (q & Hq & Hin)%list_elem_of_fmap.
  apply list_elem_of_omap in Hin as (m & Hm & Hres).
  rewrite (resolve_name Regex re_compile exec_module st m q Hinv Hres) in Hq.
  by subst.
Qed.

End RegistryLifecycle.

(** ** analyzer.py: what the validator accepts *)

Section ValidatorAcceptance.
Import Ast Analyzer.
Variable ast_parse : string → SyntaxError + list node.





End ValidatorAcceptance.


(** ** monitor.py: what a pass over an entry leaves alone *)

Section MonitorMore.
Import PluginLoader Watchlist Monitor.
Variable Regex : Type.
Variable re_compile : string → option Regex.
Variable exec_module : string → string → option PyModule.
Variable POLL_INTERVAL : Z.
Variable now : string → string.

Local Abbreviation load_plugin := (load_plugin Regex re_compile exec_module).
Local Abbreviation resolve := (Claimed.resolve Regex re_compile exec_module).
Local Abbreviation process_entry :=
  (process_entry Regex re_compile exec_module POLL_INTERVAL).

Implicit Types st : poll_state Regex.
Implicit Types fetch_page : string → option string * string.

(** An entry whose plugin does not load is passed over: whatever a fetch
    would have given, the watch list, the previous states and the
    registry stay as they are, and a warning is all that is logged. *)
Theorem missing_plugin_skips_entry fetch_page st (e : WatchEntry) :
  resolve (reg st) (plugin_name e) = None →
  process_entry fetch_page now st e
  = mkPoll (db st) (prev_states st) (reg st) (check_count st)
      (out st ++ [LogPluginMissing (plugin_name e) (url e)]).
Proof.
  intros Hres. unfold Monitor.process_entry.
  pose proof (load_plugin_fst Regex re_compile exec_module (reg st)
                (plugin_name e)) as Hfst.
  pose proof (load_plugin_failed_same Regex re_compile exec_module
                (plugin_name e) (reg st)) as Hsame.
  destruct (load_plugin (plugin_name e) (reg st)) as [o reg'].
  simpl in *. rewrite Hres in Hfst. subst o. by rewrite Hsame.
Qed.

(** A notification is sent, or the previous-state map changed, only when
    the plugin loaded, the fetch gave content, [parse] returned, and the
    state returned differs from the previous one: a missing plugin, a
    failed fetch and a crashing plugin alert nobody. *)
Theorem notifications_only_on_parsed_change fetch_page st (e : WatchEntry) :
  let st' := process_entry fetch_page now st e in
  ∃ evs, out st' = out st ++ evs
    ∧ (filter is_notification evs ≠ [] ∨ prev_states st' ≠ prev_states st →
       ∃ plugin html tier result,
         resolve (reg st) (plugin_name e) = Some plugin
         ∧ fetch_page (url e) = (Some html, tier)
         ∧ parse_fn plugin html (url e) = inr result
         ∧ value (state result)
           ≠ default "UNKNOWN" (prev_states st !! url e)).
Proof.
  simpl. unfold Monitor.process_entry.
  rewrite <- (load_plugin_fst Regex re_compile exec_module (reg st)).
  destruct (load_plugin (plugin_name e) (reg st)) as [[plugin|] reg']; simpl.
  - destruct (fetch_page (url e)) as [[html|] tier].
    + destruct (parse_fn plugin html (url e)) as [exc|result] eqn:Hp.
      * eexists. split; [done|]. simpl. by intros [?|?].
      * case_decide as Hne; simpl.
        -- eexists. rewrite <- app_assoc. split; [done|]. intros _.
           by exists plugin, html, tier, result.
        -- eexists. split; [done|]. by intros [?|?].
    + destruct (increment_failures (url e) (db st)) as [failures db'].
      eexists. split; [done|]. by intros [?|?].
  - eexists. split; [done|]. by intros [?|?].
Qed.

(** After a successful parse the row of the URL has the state returned,
    the time of the check, and a failure counter of 0; its plugin, event
    name and [added_at] are kept. *)
Theorem parsed_entry_row fetch_page st (e : WatchEntry) plugin html tier
    (result : CheckResult) (old : WatchEntry) :
  resolve (reg st) (plugin_name e) = Some plugin →
  fetch_page (url e) = (Some html, tier) →
  parse_fn plugin html (url e) = inr result →
  get (url e) (db st) = Some old →
  get (url e) (db (process_entry fetch_page now st e))
  = Some (mkWatchEntry (url e) (plugin_name old) (entry_event_name old)
            (added_at old) (value (state result)) (now (url e)) 0).
Proof.
  intros Hres Hf Hp Hold. unfold Monitor.process_entry.
  pose proof (load_plugin_fst Regex re_compile exec_module (reg st)
                (plugin_name e)) as Hfst.
  destruct (load_plugin (plugin_name e) (reg st)) as [o reg'].
  simpl in Hfst. rewrite Hres in Hfst. subst o. rewrite Hf, Hp.
  unfold get in *. destruct (db st !! url e) as [r|] eqn:Hr; [|done].
  injection Hold as <-.
  case_decide; simpl; unfold update_state; by rewrite lookup_alter_eq, Hr.
Qed.

(** An alert is not repeated, even across a crash of the plugin.  Let a
    first pass over an entry parse a page, a second pass find the plugin
    crashing on another page, and a third pass parse the first page
    again.  The second pass and the third pass send nothing, although
    the row's [last_state] went to UNKNOWN in between and back. *)
Theorem alert_not_repeated_across_crash fetch_ok fetch_bad st (e : WatchEntry)
    plugin reg' html tier (result : CheckResult) html' tier' exc :
  load_plugin (plugin_name e) (reg st) = (Some plugin, reg') →
  fetch_ok (url e) = (Some html, tier) →
  parse_fn plugin html (url e) = inr result →
  fetch_bad (url e) = (Some html', tier') →
  parse_fn plugin html' (url e) = inl exc →
  let st1 := process_entry fetch_ok now st e in
  let st2 := process_entry fetch_bad now st1 e in
  let st3 := process_entry fetch_ok now st2 e in
  out st2 = out st1 ++ [LogPluginCrashed (plugin_name e) (url e) exc]
  ∧ out st3
    = out st2 ++ [LogCheck (check_count st) (url e) (value (state result)) tier
                    (details result)]
  ∧ prev_states st3 = prev_states st1.
Proof.
  intros Hl Hf Hp Hf' Hp'. cbv zeta.
  pose proof (load_plugin_again Regex re_compile exec_module _ _ _ _ Hl) as Hl'.
  assert (∃ ps out1,
    process_entry fetch_ok now st e
    = mkPoll (update_state (now (url e)) (url e) (value (state result)) true
                (db st)) ps reg' (check_count st) out1
    ∧ default "UNKNOWN" (ps !! url e) = value (state result)) as
    (ps & out1 & Hst1 & Hps).
  { unfold Monitor.process_entry. rewrite Hl, Hf, Hp.
    case_decide as Hne; eexists _, _; (split; [reflexivity|]).
    - by rewrite lookup_insert_eq.
    - done. }
  rewrite Hst1.
  rewrite (process_entry_crashed Regex re_compile exec_module POLL_INTERVAL
             fetch_bad now (mkPoll _ ps reg' _ out1) e plugin reg' html' tier'
             exc Hl' Hf' Hp').
  simpl. split; [done|].
  unfold Monitor.process_entry at 1 2. simpl. rewrite Hl', Hf, Hp. simpl.
  rewrite Hps. by rewrite decide_False by (by intros ?).
Qed.

(** After a restart nothing is re-sent for a state already persisted: in
    the state [cmd_run] starts with, an entry whose plugin returns the
    [last_state] its row holds sends no notification. *)
Theorem restart_does_not_resend fetch_page (d : table) (r0 : registry Regex)
    (e : WatchEntry) plugin html tier (result : CheckResult) :
  get (url e) d = Some e →
  resolve r0 (plugin_name e) = Some plugin →
  fetch_page (url e) = (Some html, tier) →
  parse_fn plugin html (url e) = inr result →
  value (state result) = last_state e →
  let st := start Regex d r0 in
  out (process_entry fetch_page now st e)
  = out st ++ [LogCheck 0 (url e) (last_state e) tier (details result)]
  ∧ prev_states (process_entry fetch_page now st e) = prev_states st.
Proof.
  intros Hget Hres Hf Hp Hsame. cbv zeta. unfold Monitor.process_entry.
  pose proof (load_plugin_fst Regex re_compile exec_module
                (reg (start Regex d r0)) (plugin_name e)) as Hfst.
  destruct (load_plugin (plugin_name e) (reg (start Regex d r0))) as [o reg'].
  simpl in Hfst. rewrite Hres in Hfst. subst o. rewrite Hf, Hp.
  assert (default "UNKNOWN" (prev_states (start Regex d r0) !! url e)
          = last_state e) as Hprev.
  { simpl. rewrite seed_prev_states_lookup. unfold get in Hget.
    destruct (d !! url e) as [r|]; [|done]. simpl in *. by injection Hget as <-. }
  rewrite Hprev, Hsame. by rewrite decide_False by (by intros ?).
Qed.

End MonitorMore.

(** ** fetcher.py: the two tiers *)

Section FetcherFacts.
Import Fetcher.
Variable curl_get : string → string + Response.
Variable browse : string → option (string + string * string).


(** [fetch_page] labels what it returns with the tier that gave it: the
    first tier's content when there is any, without a look at the
    browser; else the browser's content, which is there only when the
    page title carries neither of the two block markers; and no content
    exactly under the label Failed. *)
Theorem fetch_page_tiers (url : string) (allow_non_200 : bool) :
  let r := fetch_page curl_get browse url allow_non_200 in
  (r.1 = None ↔ r.2 = "Failed")
  ∧ (∀ html, fetch_page_curl curl_get url allow_non_200 = Some html →
       ∀ browse', fetch_page curl_get browse' url allow_non_200
                  = (Some html, "curl_cffi"))
  ∧ (r.2 = "Playwright" →
     fetch_page_curl curl_get url allow_non_200 = None
     ∧ ∃ title content,
         browse url = Some (inr (title, content))
         ∧ r.1 = Some content
         ∧ Py.contains "Attention Required" title = false
         ∧ Py.contains "Just a moment" title = false)
  ∧ (r.2 = "curl_cffi" ∨ r.2 = "Playwright" ∨ r.2 = "Failed").
Proof.
  simpl. unfold fetch_page.
  split; [|split; [|split]].
  - destruct (fetch_page_curl curl_get url allow_non_200); [done|].
    by destruct (fetch_page_playwright browse url).
  - intros html Hc browse'. by rewrite Hc.
  - destruct (fetch_page_curl curl_get url allow_non_200); [done|].
    unfold fetch_page_playwright.
    destruct (browse url) as [[exc|[title content]]|]; simpl; try done.
    destruct (Py.contains "Attention Required" title) eqn:H1; [done|].
    destruct (Py.contains "Just a moment" title) eqn:H2; [done|].
    simpl. intros _. split; [done|]. by exists title, content.
  - destruct (fetch_page_curl curl_get url allow_non_200); [by left|].
    destruct (fetch_page_playwright browse url); [right; by left | by do 2 right].
Qed.

End FetcherFacts.

(** ** notifier.py: when a message goes out *)

Section NotifierFacts.
Import Notifier.
Variable TELEGRAM_BOT_TOKEN : string.
Variable TELEGRAM_CHAT_ID : string.
Variable post : bool → string → string + ApiResponse.

Local Abbreviation send_telegram :=
  (send_telegram TELEGRAM_BOT_TOKEN TELEGRAM_CHAT_ID post).

(** Splits the goal, takes the hypotheses apart and closes each case. *)
Ltac settle :=
  repeat split; intros; simpl in *;
  repeat match goal with
         | H : ∃ _, _ |- _ => destruct H
         | H : _ ∧ _ |- _ => destruct H
         | H : _ ∨ _ |- _ => destruct H
         end;
  simplify_eq; try done; try congruence; eauto 10.

(** [send_telegram] posts nothing without both credentials.  With them
    it posts once with Markdown, and a second time, as plain text, only
    after the API refused the first with status 400 over entities it
    could not parse.  It answers True exactly when the last post it made
    was answered with ok. *)
Theorem send_telegram_posts (message : string) :
  let r := send_telegram message in
  (r.2 = [] ↔ TELEGRAM_BOT_TOKEN = "" ∨ TELEGRAM_CHAT_ID = "")
  ∧ (r.2 = [] ∨ r.2 = [true] ∨ r.2 = [true; false])
  ∧ (r.2 = [true; false]
     ↔ TELEGRAM_BOT_TOKEN ≠ "" ∧ TELEGRAM_CHAT_ID ≠ ""
       ∧ ∃ resp, post true message = inr resp ∧ ok resp = false
                 ∧ api_status_code resp = 400%Z
                 ∧ Py.contains "can't parse entities" (api_text resp) = true)
  ∧ (r.1 = true
     ↔ ∃ markdown resp, last r.2 = Some markdown
                        ∧ post markdown message = inr resp ∧ ok resp = true).
Proof.
  simpl. unfold Notifier.send_telegram.
  destruct (bool_decide (TELEGRAM_BOT_TOKEN = "")) eqn:Htok;
    [apply bool_decide_eq_true in Htok | apply bool_decide_eq_false in Htok];
    simpl; [settle|].
  destruct (bool_decide (TELEGRAM_CHAT_ID = "")) eqn:Hchat;
    [apply bool_decide_eq_true in Hchat | apply bool_decide_eq_false in Hchat];
    simpl; [settle|].
  destruct (post true message) as [exc|resp] eqn:Hpost; [settle|].
  destruct (ok resp) eqn:Hok; [settle|].
  destruct (bool_decide (api_status_code resp = 400%Z)) eqn:H400;
    [apply bool_decide_eq_true in H400 | apply bool_decide_eq_false in H400];
    simpl; [|settle].
  destruct (Py.contains "can't parse entities" (api_text resp)) eqn:Hent;
    [|settle].
  destruct (post false message) as [exc2|resp2] eqn:Hpost2; [settle|].
  destruct (ok resp2) eqn:Hok2; settle.
Qed.

End NotifierFacts.

(** ** analyzer.generate_plugin: the retry loop *)

Section GeneratorFacts.
Import Generator.
Variable ast_parse : string → Analyzer.SyntaxError + list Ast.node.
Variable GEMINI_API_KEY : string.
Variable GENERATE_PROMPT : string → string → string → string.
Variable FIX_PROMPT : string → string → string.
Variable watch_block_for : string → string.
Variable generate_content : nat → string → string + string.
Variable _parse_response : string → option json.

Local Abbreviation attempt_body :=
  (attempt_body ast_parse FIX_PROMPT generate_content _parse_response).
Local Abbreviation attempts :=
  (attempts ast_parse FIX_PROMPT generate_content _parse_response).
Local Abbreviation generate_plugin :=
  (generate_plugin ast_parse GEMINI_API_KEY GENERATE_PROMPT FIX_PROMPT
     watch_block_for generate_content _parse_response).
Local Abbreviation accepted := (accepted ast_parse _parse_response).

Lemma attempt_body_return (mr : Z) (a : nat) (p : string) (r : json) :
  attempt_body mr a p = Return r →
  ∃ text, generate_content a p = inr text ∧ accepted text r.
Proof.
  unfold Generator.attempt_body, Generator.accepted.
  destruct (generate_content a p) as [exc|text]; [done|].
  destruct (_parse_response text) as [res|] eqn:Hparse; [|by case_bool_decide].
  destruct (truthy res); simpl; [|by case_bool_decide].
  destruct res as [| | | |items|fields]; try done.
  destruct (default (JStr "") (lookup_field "plugin_code" fields))
    as [| | |code| |] eqn:Hcode; try done.
  destruct (Analyzer.validate_plugin_code ast_parse code) eqn:Hv;
    [|by case_bool_decide].
  intros [= <-]. exists text. split; [done|]. split; [done|].
  by exists fields, code.
Qed.




Lemma attempts_result (mr : Z) (left : nat) : ∀ a p r,
  (attempts mr left a p).1 = Some r →
  ∃ prompt text,
    last (attempts mr left a p).2 = Some prompt
    ∧ generate_content (a + length (attempts mr left a p).2 - 1) prompt
      = inr text
    ∧ accepted text r.
Proof.
  induction left as [|left IH]; intros a p r; simpl; [done|].
  destruct (attempt_body mr a p) as [res| |p'] eqn:Hbody; simpl; [|done|].
  - intros [= <-]. apply attempt_body_return in Hbody as (text & Hg & Hacc).
    exists p, text. replace (a + 1 - 1) with a by lia. done.
  - specialize (IH (S a) p' r).
    destruct (attempts mr left (S a) p') as [o sent]. cbn [fst snd] in *.
    intros ->. destruct (IH eq_refl) as (prompt & text & Hlast & Hg & Hacc).
    destruct sent as [|q sent]; [done|].
    eexists prompt, text. split; [exact Hlast|]. split; [|exact Hacc].
    rewrite <- Hg. f_equal. cbn [length]. lia.
Qed.


Lemma generate_plugin_accepted (url html watch_for : string)
    (max_retries : Z) (result : json) :
  (generate_plugin url html watch_for max_retries).1 = Some result →
  ∃ fields code,
    result = JDict fields
    ∧ default (JStr "") (lookup_field "plugin_code" fields) = JStr code
    ∧ Analyzer.validate_plugin_code ast_parse code = [].
Proof.
  unfold Generator.generate_plugin. case_bool_decide as Hkey; [done|].
  intros Hres.
  apply attempts_result in Hres
    as (prompt & text & Hlast & Hg & Hp & fields & code & Hr & Hc & Hv).
  by exists fields, code.
Qed.

(** A result [generate_plugin] returns was read from the response to the
    last prompt it sent, and is a dict whose [plugin_code] is a string
    that [validate_plugin_code] accepts without a violation. *)
Theorem generated_plugin_is_validated (url html watch_for : string)
    (max_retries : Z) (result : json) :
  (generate_plugin url html watch_for max_retries).1 = Some result →
  let sent := (generate_plugin url html watch_for max_retries).2 in
  ∃ prompt text fields code,
    last sent = Some prompt
    ∧ generate_content (length sent - 1) prompt = inr text
    ∧ _parse_response text = Some result
    ∧ result = JDict fields
    ∧ default (JStr "") (lookup_field "plugin_code" fields) = JStr code
    ∧ Analyzer.validate_plugin_code ast_parse code = [].
Proof.
  unfold Generator.generate_plugin. case_bool_decide as Hkey; [done|].
  intros Hres. cbv zeta.
  apply attempts_result in Hres
    as (prompt & text & Hlast & Hg & Hp & fields & code & Hr & Hc & Hv).
  exists prompt, text, fields, code. by repeat split.
Qed.


End GeneratorFacts.

(** ** monitor_bms.py: alerts and backoff of the single-event monitor *)

Section BmsFacts.
Import Bms.
Variable POLL_INTERVAL : Z.
Variable EVENT_URL : string.
Variable detect_state : string → State * string.

Local Abbreviation step := (step POLL_INTERVAL EVENT_URL).
Local Abbreviation check_availability := (check_availability detect_state).


Lemma step_backoff_failed (l : loop) (s : State) (d : string) :
  current_backoff (step l (s, d, "Failed"))
  = Z.min (current_backoff l * 2) 600.
Proof. done. Qed.

(** The wait doubles with every check in a row that fetched nothing, up
    to 600 seconds, and goes back to the poll interval with the first
    check that fetched a page; a check fetched nothing exactly when both
    tiers returned None. *)
Theorem bms_backoff_schedule (l : loop) (checks : list (State * string * string)) :
  Forall (λ c, c.2 = "Failed") checks → checks ≠ [] →
  current_backoff (fold_left step checks l)
  = Z.min (current_backoff l * 2 ^ Z.of_nat (length checks)) 600
  ∧ (∀ s d tier, tier ≠ "Failed" →
       current_backoff (step (fold_left step checks l) (s, d, tier))
       = POLL_INTERVAL)
  ∧ (∀ curl playwright,
       (check_availability curl playwright).2 = "Failed"
       ↔ curl = None ∧ playwright = None).
Proof.
  intros Hall Hne. split; [|split].
  - revert l. induction checks as [|[[s d] t] rest IH]; intros l; [done|].
    apply Forall_cons in Hall as [Ht Hall]. simpl in Ht. subst t.
    cbn [fold_left]. destruct rest as [|c rest].
    + cbn [fold_left length]. rewrite step_backoff_failed.
      by rewrite Z.pow_1_r.
    + rewrite IH by done. rewrite step_backoff_failed.
      remember (c :: rest) as cs. cbn [length].
      rewrite Nat2Z.inj_succ, Z.pow_succ_r by lia.
      assert (1 ≤ 2 ^ Z.of_nat (length cs))%Z as Hpow.
      { pose proof (Z.pow_pos_nonneg 2 (Z.of_nat (length cs))). lia. }
      generalize dependent (2 ^ Z.of_nat (length cs))%Z. intros k _ Hk.
      destruct (Z.le_gt_cases (current_backoff l * 2) 600) as [Hle|Hgt].
      * rewrite (Z.min_l _ 600 Hle). f_equal. lia.
      * rewrite (Z.min_r (current_backoff l * 2) 600) by lia.
        set (b := current_backoff l) in *.
        assert (b * 2 ≤ b * (2 * k))%Z
          by (apply Z.mul_le_mono_nonneg_l; lia).
        rewrite !Z.min_r; lia.
  - intros s d tier Htier. unfold Bms.step. cbn [current_backoff].
    by rewrite bool_decide_eq_false_2.
  - intros curl pw. unfold Bms.check_availability.
    destruct curl as [h|]; [destruct (detect_state h); by split; [|intros []]|].
    destruct pw as [h|]; [destruct (detect_state h); by split; [|intros []]|].
    done.
Qed.

End BmsFacts.

(** ** monitor.cmd_add: what adding a URL does *)

Section CommandsFacts.
Import PluginLoader Watchlist Generator Commands.
Variable Regex : Type.
Variable re_compile : string → option Regex.
Variable re_search : Regex → string → bool.
Variable exec_module : string → string → option PyModule.
Variable PLUGINS_DIR : string.
Variable ast_parse : string → Analyzer.SyntaxError + list Ast.node.
Variable GEMINI_API_KEY : string.
Variable GENERATE_PROMPT : string → string → string → string.
Variable FIX_PROMPT : string → string → string.
Variable watch_block_for : string → string.
Variable generate_content : nat → string → string + string.
Variable _parse_response : string → option json.
Variable fetch_page : string → bool → option string * string.
Variable strip_html_noise : string → string.
Variable now : string.

Local Abbreviation cmd_add :=
  (cmd_add Regex re_compile re_search exec_module PLUGINS_DIR ast_parse
     GEMINI_API_KEY GENERATE_PROMPT FIX_PROMPT watch_block_for
     generate_content _parse_response fetch_page strip_html_noise now).
Local Abbreviation add_generated :=
  (add_generated Regex re_compile exec_module PLUGINS_DIR now).
Local Abbreviation load_plugin := (load_plugin Regex re_compile exec_module).
Local Abbreviation load_all_plugins :=
  (load_all_plugins Regex re_compile exec_module).
Local Abbreviation find_plugin_for_url :=
  (find_plugin_for_url Regex re_compile re_search exec_module).
Local Abbreviation resolve := (Claimed.resolve Regex re_compile exec_module).

Implicit Types w : world Regex.

Lemma load_all_fold_resolve (l : list string) : ∀ acc st m,
  resolve (fold_left (load_all_step Regex re_compile exec_module) l
             (acc, st)).2 m
  = resolve st m.
Proof.
  induction l as [|f l IH]; intros acc st m; simpl; [done|].
  pose proof (load_all_step_snd Regex re_compile exec_module acc st f) as Hsnd.
  destruct (load_all_step Regex re_compile exec_module (acc, st) f)
    as [acc' st'].
  simpl in Hsnd. rewrite IH. destruct Hsnd as [->| ->]; [done|].
  apply load_plugin_resolve.
Qed.

(** Any plugin [find_plugin_for_url] returns can be loaded afterwards
    under the name it carries, when cached plugins carry the names they
    are cached under. *)
Lemma found_plugin_loads (url : string) (st : registry Regex)
    (p : Plugin Regex) :
  (∀ m q, _cache st !! m = Some q → name q = m) →
  (find_plugin_for_url url st).1 = Some p →
  (load_plugin (name p) (find_plugin_for_url url st).2).1 = Some p.
Proof.
  intros Hinv Hfind. rewrite load_plugin_fst, find_plugin_for_url_snd.
  unfold PluginLoader.load_all_plugins. rewrite load_all_fold_resolve.
  rewrite find_plugin_for_url_fst, load_all_plugins_fst in Hfind.
  apply find_some in Hfind as [Hin _].
  apply list_elem_of_In, list_elem_of_omap in Hin as (n & _ & Hres).
  by rewrite (resolve_name Regex re_compile exec_module st n p Hinv Hres).
Qed.

Lemma add_generated_db (url : string) (result : json) (db : table)
    (reg1 : registry Regex) :
  let r := add_generated url result db reg1 in
  (r.1 ≠ Returned → w_db r.2 = db)
  ∧ (r.1 = Returned →
     ∃ pn ev plugin,
       w_db r.2 = add now url pn ev db
       ∧ (load_plugin pn (w_reg r.2)).1 = Some plugin).
Proof.
  simpl. unfold Commands.add_generated.
  destruct result as [| | | | |fields]; try done.
  destruct (lookup_field "platform_name" fields) as [pn|]; [|done].
  destruct (lookup_field "plugin_code" fields) as [pc|]; [|done].
  destruct pn as [| | |pn| |]; try done.
  destruct pc as [| | |pc| |]; try done.
  destruct (default (JStr "") (lookup_field "event_name" fields))
    as [| | |ev| |]; try done.
  destruct (reload_plugin Regex re_compile exec_module pn _)
    as [[plugin|] reg3] eqn:Hreload; simpl; [|done].
  split; [done|]. intros _. exists pn, ev, plugin. split; [done|].
  unfold PluginLoader.reload_plugin in Hreload.
  by rewrite (load_plugin_again Regex re_compile exec_module _ _ _ _ Hreload).
Qed.

(** The case left unmodelled aside, [cmd_add] touches the watch list only
    when it returns, and then only the row of the URL given: a run that
    exits or raises leaves the watch list as it was.  When it returns for
    a URL that was not watched, the URL is watched from then on, with
    state UNKNOWN and no failures, under a plugin name that [load_plugin]
    loads. *)
Theorem cmd_add_watchlist (url watch_for : string) w :
  (∀ m q, _cache (w_reg w) !! m = Some q → name q = m) →
  let r := cmd_add url watch_for w in
  r.1 ≠ OffContract →
  (r.1 ≠ Returned → w_db r.2 = w_db w)
  ∧ (∀ u, u ≠ url → get u (w_db r.2) = get u (w_db w))
  ∧ (get url (w_db w) = None → r.1 = Returned →
     ∃ pn ev plugin,
       get url (w_db r.2) = Some (mkWatchEntry url pn ev now "UNKNOWN" "" 0)
       ∧ (load_plugin pn (w_reg r.2)).1 = Some plugin).
Proof.
  intros Hinv. cbv zeta. intros _. unfold Commands.cmd_add.
  destruct (get url (w_db w)) as [e|] eqn:Hget; [done|].
  assert (∀ pn ev u, u ≠ url →
            get u (add now url pn ev (w_db w)) = get u (w_db w)) as Hother.
  { intros pn ev u Hu.
    by apply (add_fresh_lookup now url pn ev (w_db w) Hget). }
  assert (∀ pn ev, get url (add now url pn ev (w_db w))
                   = Some (mkWatchEntry url pn ev now "UNKNOWN" "" 0)) as Hnew.
  { intros pn ev. by apply (add_fresh_lookup now url pn ev (w_db w) Hget). }
  destruct (if bool_decide (watch_for = "") then _ else _)
    as [[plugin|] reg1] eqn:Hmatched.
  - cbn [fst snd w_db w_reg]. split; [done|]. split; [by intros; apply Hother|].
    intros _ _. exists (name plugin), "", plugin. split; [apply Hnew|].
    case_bool_decide; [|done].
    pose proof (found_plugin_loads url (w_reg w) plugin Hinv) as Hload.
    rewrite Hmatched in Hload. by apply Hload.
  - destruct (fetch_page url true) as [[html|] tier]; [|done].
    destruct (generate_plugin _ _ _ _ _ _ _ _ _ _ _).1 as [result|]; [|done].
    destruct (truthy result); simpl; [|done].
    destruct (add_generated_db url result (w_db w) reg1) as [Hfail Hok].
    destruct (add_generated url result (w_db w) reg1) as [o w'].
    cbn [fst snd] in *. split; [done|]. split.
    + intros u Hu. destruct o;
        [destruct (Hok eq_refl) as (pn & ev & _ & -> & _); by apply Hother
        |by rewrite Hfail..].
    + intros _ ->. destruct (Hok eq_refl) as (pn & ev & plugin & -> & Hload).
      exists pn, ev, plugin. split; [apply Hnew | done].
Qed.

(** [cmd_add] writes at most one file to the plugins directory, and what
    it writes is source [validate_plugin_code] accepted without a
    violation (the case left unmodelled aside). *)
Theorem cmd_add_saves_validated_code (url watch_for : string) w :
  let r := cmd_add url watch_for w in
  r.1 ≠ OffContract →
  files (w_reg r.2) = files (w_reg w)
  ∨ ∃ n code,
      files (w_reg r.2) = <[file_of n := code]> (files (w_reg w))
      ∧ Analyzer.validate_plugin_code ast_parse code = [].
Proof.
  cbv zeta. unfold Commands.cmd_add.
  destruct (get url (w_db w)) as [e|]; [by left|].
  assert (files (if bool_decide (watch_for = "")
                 then find_plugin_for_url url (w_reg w)
                 else (None, w_reg w)).2 = files (w_reg w)) as Hfiles.
  { case_bool_decide; [|done]. rewrite find_plugin_for_url_snd.
    apply load_all_plugins_files. }
  destruct (if bool_decide (watch_for = "") then _ else _)
    as [[plugin|] reg1]; cbn [snd] in Hfiles; [by left|].
  destruct (fetch_page url true) as [[html|] tier]; [|by left].
  destruct (generate_plugin _ _ _ _ _ _ _ _ _ _ _).1 as [result|] eqn:Hgen;
    [|by left].
  destruct (truthy result); simpl; [|by left].
  apply generate_plugin_accepted in Hgen
    as (fields & code & -> & Hcode & Hvalid).
  unfold Commands.add_generated.
  destruct (lookup_field "platform_name" fields) as [pn|]; [|by left].
  destruct (lookup_field "plugin_code" fields) as [pc|]; [|by left].
  simpl in Hcode. subst pc.
  destruct pn as [| | |pn| |]; try done.
  destruct (default (JStr "") (lookup_field "event_name" fields))
    as [| | |ev| |]; try done.
  intros _. right. exists pn, code. split; [|done].
  destruct (reload_plugin Regex re_compile exec_module pn _)
    as [[plugin|] reg3] eqn:Hreload; cbn [snd w_reg];
    unfold PluginLoader.reload_plugin in Hreload;
    pose proof (load_plugin_files Regex re_compile exec_module
                  (mkRegistry
                     (files (save_plugin Regex PLUGINS_DIR pn code reg1).2)
                     (delete pn (_cache (save_plugin Regex PLUGINS_DIR pn code
                                           reg1).2))) pn) as Hf;
    rewrite Hreload in Hf; cbn [snd] in Hf; rewrite Hf; simpl;
    by rewrite Hfiles.
Qed.

End CommandsFacts.

(** ** The properties above on the sample inputs *)

Lemma loaded_plugin_carries_its_name_witness :
  PluginLoader.name Samples.cached_a = "a".
Proof.
  apply (loaded_plugin_carries_its_name string Samples.literal_compile
           Samples.contains Samples.sample_exec "plugins"
           {[ "a.py" := Samples.SRC_EXAMPLE ]}
           [PluginLoader.Invoke PluginLoader.OpLoadAll] "a" Samples.cached_a).
  reflexivity.
Defined.

Lemma load_all_names_distinct_witness :
  NoDup (PluginLoader.name
           <$> (PluginLoader.load_all_plugins string Samples.literal_compile
                  Samples.sample_exec Samples.two_plugins).1).
Proof.
  apply (load_all_names_distinct string Samples.literal_compile
           Samples.sample_exec Samples.two_plugins).
  intros m q H. vm_compute in H. discriminate H.
Defined.

Lemma missing_plugin_skips_entry_witness :
  Monitor.process_entry string Samples.literal_compile Samples.sample_exec 60
    Samples.fetch_ok Samples.clock
    (Monitor.mkPoll Samples.one_row ∅ Samples.no_plugins 1 [])
    Samples.entry0
  = Monitor.mkPoll Samples.one_row ∅ Samples.no_plugins 1
      [Monitor.LogPluginMissing "a" Samples.URL].
Proof.
  apply (missing_plugin_skips_entry string Samples.literal_compile
           Samples.sample_exec 60 Samples.clock Samples.fetch_ok
           (Monitor.mkPoll Samples.one_row ∅ Samples.no_plugins 1 [])
           Samples.entry0).
  reflexivity.
Defined.

Lemma parsed_entry_row_witness :
  Watchlist.get Samples.URL
    (Monitor.db
       (Monitor.process_entry string Samples.literal_compile
          Samples.sample_exec 60 Samples.fetch_ok Samples.clock
          Samples.polling Samples.entry0))
  = Some (mkWatchEntry Samples.URL "a" "" "2024-01-01" "AVAILABLE"
            "2024-01-02T00:00:00+00:00" 0).
Proof.
  apply (parsed_entry_row string Samples.literal_compile Samples.sample_exec
           60 Samples.clock Samples.fetch_ok Samples.polling Samples.entry0
           Samples.cached_a "<html></html>" "curl_cffi"
           (mkCheckResult AVAILABLE "" None) Samples.entry0);
    reflexivity.
Defined.

Lemma alert_not_repeated_across_crash_witness :
  Monitor.prev_states
    (Monitor.process_entry string Samples.literal_compile Samples.sample_exec
       60 Samples.fetch_ok Samples.clock
       (Monitor.process_entry string Samples.literal_compile
          Samples.sample_exec 60 Samples.fetch_empty Samples.clock
          (Monitor.process_entry string Samples.literal_compile
             Samples.sample_exec 60 Samples.fetch_ok Samples.clock
             Samples.polling_flaky Samples.entry0)
          Samples.entry0)
       Samples.entry0)
  = Monitor.prev_states
      (Monitor.process_entry string Samples.literal_compile
         Samples.sample_exec 60 Samples.fetch_ok Samples.clock
         Samples.polling_flaky Samples.entry0).
Proof.
  apply (alert_not_repeated_across_crash string Samples.literal_compile
           Samples.sample_exec 60 Samples.clock Samples.fetch_ok
           Samples.fetch_empty Samples.polling_flaky Samples.entry0
           Samples.flaky_a
           (PluginLoader.mkRegistry ∅ {[ "a" := Samples.flaky_a ]})
           "<html></html>" "curl_cffi" (mkCheckResult AVAILABLE "" None)
           "" "curl_cffi" "boom");
    reflexivity.
Defined.

Lemma restart_does_not_resend_witness :
  Monitor.prev_states
    (Monitor.process_entry string Samples.literal_compile Samples.sample_exec
       60 Samples.fetch_ok Samples.clock
       (Monitor.start string
          {[ Samples.URL
             := Watchlist.mkRow "a" "" "2024-01-01" "AVAILABLE" "" 0 ]}
          Samples.warm)
       (mkWatchEntry Samples.URL "a" "" "2024-01-01" "AVAILABLE" "" 0))
  = Monitor.prev_states
      (Monitor.start string
         {[ Samples.URL
            := Watchlist.mkRow "a" "" "2024-01-01" "AVAILABLE" "" 0 ]}
         Samples.warm).
Proof.
  apply (restart_does_not_resend string Samples.literal_compile
           Samples.sample_exec 60 Samples.clock Samples.fetch_ok
           {[ Samples.URL
              := Watchlist.mkRow "a" "" "2024-01-01" "AVAILABLE" "" 0 ]}
           Samples.warm
           (mkWatchEntry Samples.URL "a" "" "2024-01-01" "AVAILABLE" "" 0)
           Samples.cached_a "<html></html>" "curl_cffi"
           (mkCheckResult AVAILABLE "" None));
    reflexivity.
Defined.

Lemma generated_plugin_is_validated_witness :
  ∃ prompt text fields code,
    last (Generator.generate_plugin Samples.sample_parse "key"
            Samples.generate_prompt Samples.fix_prompt Samples.watch_block
            Samples.answer Samples.read_answer Samples.URL "<html></html>"
            "" 2).2
    = Some prompt
    ∧ Samples.answer
        (length (Generator.generate_plugin Samples.sample_parse "key"
                   Samples.generate_prompt Samples.fix_prompt
                   Samples.watch_block Samples.answer Samples.read_answer
                   Samples.URL "<html></html>" "" 2).2 - 1)
        prompt
      = inr text
    ∧ Samples.read_answer text
      = Some (Generator.JDict
                [("platform_name", Generator.JStr "good");
                 ("plugin_code", Generator.JStr Samples.SRC_GOOD)])
    ∧ Generator.JDict
        [("platform_name", Generator.JStr "good");
         ("plugin_code", Generator.JStr Samples.SRC_GOOD)]
      = Generator.JDict fields
    ∧ default (Generator.JStr "")
        (Generator.lookup_field "plugin_code" fields)
      = Generator.JStr code
    ∧ Analyzer.validate_plugin_code Samples.sample_parse code = [].
Proof.
  apply (generated_plugin_is_validated Samples.sample_parse "key"
           Samples.generate_prompt Samples.fix_prompt Samples.watch_block
           Samples.answer Samples.read_answer Samples.URL "<html></html>" ""
           2).
  reflexivity.
Defined.

Lemma bms_backoff_schedule_witness :
  Bms.current_backoff
    (fold_left (Bms.step 60 Samples.URL)
       [(Bms.S_UNKNOWN, "fetch failed", "Failed");
        (Bms.S_UNKNOWN, "fetch failed", "Failed");
        (Bms.S_UNKNOWN, "fetch failed", "Failed")]
       (Bms.initial 60))
  = Z.min (60 * 2 ^ 3) 600.
Proof.
  apply (bms_backoff_schedule 60 Samples.URL
           (λ _, (Bms.S_NO_SEMIS_LISTED, "")) (Bms.initial 60)
           [(Bms.S_UNKNOWN, "fetch failed", "Failed");
            (Bms.S_UNKNOWN, "fetch failed", "Failed");
            (Bms.S_UNKNOWN, "fetch failed", "Failed")]).
  - repeat constructor.
  - discriminate.
Defined.

Lemma cmd_add_watchlist_witness :
  ∃ pn ev plugin,
    Watchlist.get Samples.URL
      (Commands.w_db
         (Commands.cmd_add string Samples.literal_compile Samples.contains
            Samples.sample_exec_good "plugins" Samples.sample_parse "key"
            Samples.generate_prompt Samples.fix_prompt Samples.watch_block
            Samples.answer Samples.read_answer Samples.fetch_any
            (λ html, html) "2024-02-01" Samples.URL ""
            Samples.empty_world).2)
    = Some (mkWatchEntry Samples.URL pn ev "2024-02-01" "UNKNOWN" "" 0)
    ∧ (PluginLoader.load_plugin string Samples.literal_compile
         Samples.sample_exec_good pn
         (Commands.w_reg
            (Commands.cmd_add string Samples.literal_compile Samples.contains
               Samples.sample_exec_good "plugins" Samples.sample_parse "key"
               Samples.generate_prompt Samples.fix_prompt Samples.watch_block
               Samples.answer Samples.read_answer Samples.fetch_any
               (λ html, html) "2024-02-01" Samples.URL ""
               Samples.empty_world).2)).1
      = Some plugin.
Proof.
  apply (cmd_add_watchlist string Samples.literal_compile Samples.contains
           Samples.sample_exec_good "plugins" Samples.sample_parse "key"
           Samples.generate_prompt Samples.fix_prompt Samples.watch_block
           Samples.answer Samples.read_answer Samples.fetch_any
           (λ html, html) "2024-02-01" Samples.URL "" Samples.empty_world).
  - intros m q H. vm_compute in H. discriminate H.
  - by vm_compute.
  - reflexivity.
  - reflexivity.
Defined.

Lemma cmd_add_saves_validated_code_witness :
  PluginLoader.files
    (Commands.w_reg
       (Commands.cmd_add string Samples.literal_compile Samples.contains
          Samples.sample_exec_good "plugins" Samples.sample_parse "key"
          Samples.generate_prompt Samples.fix_prompt Samples.watch_block
          Samples.answer Samples.read_answer Samples.fetch_any
          (λ html, html) "2024-02-01" Samples.URL ""
          Samples.empty_world).2)
  = PluginLoader.files (Commands.w_reg Samples.empty_world)
  ∨ ∃ n code,
      PluginLoader.files
        (Commands.w_reg
           (Commands.cmd_add string Samples.literal_compile Samples.contains
              Samples.sample_exec_good "plugins" Samples.sample_parse "key"
              Samples.generate_prompt Samples.fix_prompt Samples.watch_block
              Samples.answer Samples.read_answer Samples.fetch_any
              (λ html, html) "2024-02-01" Samples.URL ""
              Samples.empty_world).2)
      = <[PluginLoader.file_of n := code]>
          (PluginLoader.files (Commands.w_reg Samples.empty_world))
      ∧ Analyzer.validate_plugin_code Samples.sample_parse code = [].
Proof.
  apply (cmd_add_saves_validated_code string Samples.literal_compile
           Samples.contains Samples.sample_exec_good "plugins"
           Samples.sample_parse "key" Samples.generate_prompt
           Samples.fix_prompt Samples.watch_block Samples.answer
           Samples.read_answer Samples.fetch_any (λ html, html) "2024-02-01"
           Samples.URL "" Samples.empty_world).
  vm_compute. discriminate.
Defined.
